(** * GoogleBooks: the paginated book aggregator of [main.go]

    A shallow embedding of the two source variants of the service
    ([main.go], the baseline, and its sibling with a [Categories] field,
    the extended variant) together with the properties of the
    fetch-filter-accumulate loop [getBooks], the record validator
    [hasEmptyInformation] and the [/books] request handler.

    Conventions.
    - Go's [int] is modelled by [Z]; the code only compares such values.
    - A Go [string] is a byte sequence: [string] of the Standard Library.
    - A slice is a [list]; [var books []Book] (the nil slice) and
      [[]Book{}] both have length 0 and are both the empty list.
    - A Go [error] is modelled by its message; [nil] is [None].
    - The outside world is an [Upstream]: the outcome of the n-th outbound
      request, given the requested URL.  The requests made so far are
      threaded through every function as a log of URLs.
    - The [for len(books) < limit] loop has no bound in the source, so its
      model takes fuel: one unit per iteration, [None] when it runs out. *)

From Stdlib Require Import ZArith Ascii String Lia.
From stdpp Require Import gmap strings list.

Local Open Scope string_scope.
Local Open Scope list_scope.
Local Open Scope Z_scope.

(** ** The pieces of the Go standard library the program calls *)

Module GoLib.

(** [net/url]: [shouldEscape(c, encodeQueryComponent)].  Unreserved
    characters are letters, digits and [-], [_], [.], [~]; every other
    byte is escaped in a query component. *)
Definition shouldEscape (c : ascii) : bool :=
  let n := nat_of_ascii c in
  negb (((97 <=? n)%nat && (n <=? 122)%nat)
        || ((65 <=? n)%nat && (n <=? 90)%nat)
        || ((48 <=? n)%nat && (n <=? 57)%nat)
        || Ascii.eqb c "-" || Ascii.eqb c "_" || Ascii.eqb c "."
        || Ascii.eqb c "~").

(** [upperhex[i]] for [i < 16]. *)
Definition upperhex (i : nat) : ascii :=
  match String.get i "0123456789ABCDEF" with
  | Some c => c
  | None => "0"%char
  end.

(** [url.QueryEscape]: a space becomes [+], an escaped byte becomes [%XX]. *)
Fixpoint QueryEscape (s : string) : string :=
  match s with
  | EmptyString => EmptyString
  | String c rest =>
      if Ascii.eqb c " " then String "+" (QueryEscape rest)
      else if shouldEscape c then
        String "%" (String (upperhex (nat_of_ascii c / 16))
                   (String (upperhex (nat_of_ascii c mod 16))
                           (QueryEscape rest)))
      else String c (QueryEscape rest)
  end.

(** [url.Values] is [map[string][]string]; [Get] returns the first value
    stored under the key, and the empty string when there is none. *)
Definition Get (v : gmap string (list string)) (key : string) : string :=
  match v !! key with
  | Some (x :: _) => x
  | _ => ""
  end.

(** [strconv]: the two causes carried by a [*NumError]. *)
Inductive NumError : Type :=
  | ErrSyntax
  | ErrRange.

Definition intSize : Z := 64.
Definition maxUint64 : Z := 2 ^ 64 - 1.

(** The digit loop of [ParseUint(s, 10, 64)]: [ch - '0'] is computed on
    bytes, so every byte that is not a decimal digit ends above 9. *)
Fixpoint parseDigits (s : string) (n : Z) : Z + NumError :=
  match s with
  | EmptyString => inl n
  | String c rest =>
      let d := (Z.of_nat (nat_of_ascii c) - 48) mod 256 in
      if d >? 9 then inr ErrSyntax
      else if n * 10 + d >? maxUint64 then inr ErrRange
      else parseDigits rest (n * 10 + d)
  end.

Definition ParseUint (s : string) : Z + NumError :=
  match s with
  | EmptyString => inr ErrSyntax
  | _ => parseDigits s 0
  end.

(** [strconv.Atoi] on a 64-bit platform: an optional sign, then decimal
    digits, the value within the range of [int]. *)
Definition Atoi (s : string) : Z + NumError :=
  match s with
  | EmptyString => inr ErrSyntax
  | String c rest =>
      let neg := Ascii.eqb c "-" in
      let digits := if Ascii.eqb c "+" || neg then rest else s in
      match ParseUint digits with
      | inr e => inr e
      | inl un =>
          let cutoff := 2 ^ (intSize - 1) in
          if negb neg && (un >=? cutoff) then inr ErrRange
          else if neg && (un >? cutoff) then inr ErrRange
          else inl (if neg then - un else un)
      end
  end.

Definition StatusOK : Z := 200.
Definition StatusBadRequest : Z := 400.
Definition StatusInternalServerError : Z := 500.

End GoLib.

Import GoLib.

(** ** The aggregator, shared by both variants

    [getBooks] is the same text in both source files, up to the fields of
    [BookInformation] and the validator, which are the two parameters of
    this section.  The handler of this section is that of [main.go]; the
    sibling file differs from it in one message and has its own handler in
    the module [Extended]. *)

(** [const maxLimit = 50] *)
Definition maxLimit : Z := 50.

(** Outcome of one outbound [http.Get] followed by the JSON decoding of its
    body: the request failed, the body did not decode, or the decoded
    [response.Items]. *)
Inductive Response (Item : Type) : Type :=
  | GetError (err : string)
  | DecodeError (err : string)
  | Items (items : list Item).

Arguments GetError {Item} err.
Arguments DecodeError {Item} err.
Arguments Items {Item} items.

(** The outcomes after which the loop makes no further request: a failure
    or a page without candidates. *)
Definition ends {Item : Type} (r : Response Item) : bool :=
  match r with
  | Items (_ :: _) => false
  | _ => true
  end.

Section Aggregator.

Context {BookInformation : Type}.
Variable hasEmptyInformation : BookInformation -> bool.

(** [type Book struct { BookInformation BookInformation }] *)
Record Book : Type := mkBook { book_information : BookInformation }.

(** An element of [response.Items]:
    [struct { BookInformation BookInformation `json:"volumeInfo"` }]. *)
Record Item : Type := mkItem { volumeInfo : BookInformation }.

(** The upstream: what the [n]-th outbound request (counting from 0) yields
    when it asks for [url]. *)
Definition Upstream : Type := nat -> string -> Response Item.

(** What [getBooks] returns, with the log of requests after the call. *)
Definition Outcome : Type := (list Book * option string * list string)%type.

(** [fmt.Sprintf("https://www.googleapis.com/books/v1/volumes?q=%s", q)] *)
Definition volumesURL (q : string) : string :=
  "https://www.googleapis.com/books/v1/volumes?q=" +:+ q.

(** Lines 111-113: [if limit > maxLimit { limit = maxLimit }]. *)
Definition clampLimit (limit : Z) : Z :=
  if limit >? maxLimit then maxLimit else limit.

(** Lines 141-153: the scan of one page,
    [for _, item := range response.Items { ... }]. *)
Fixpoint scanItems (limit : Z) (items : list Item) (books : list Book)
  : list Book :=
  match items with
  | [] => books
  | item :: rest =>
      if Z.of_nat (length books) >=? limit then books
      else if hasEmptyInformation (volumeInfo item) then
        scanItems limit rest books
      else scanItems limit rest (books ++ [mkBook (volumeInfo item)])
  end.

(** Lines 119-156: [for len(books) < limit { ... }; return books, nil]. *)
Fixpoint fetchLoop (fuel : nat) (up : Upstream) (url : string) (limit : Z)
    (books : list Book) (log : list string) : option Outcome :=
  if Z.of_nat (length books) <? limit then
    match fuel with
    | O => None
    | S fuel' =>
        let log' := log ++ [url] in
        match up (length log) url with
        | GetError err => Some ([], Some ("making GET request: " +:+ err), log')
        | DecodeError err => Some ([], Some err, log')
        | Items items =>
            if (length items =? 0)%nat && (length books =? 0)%nat then
              Some ([], None, log')
            else if (length items =? 0)%nat then Some (books, None, log')
            else fetchLoop fuel' up url limit (scanItems limit items books) log'
        end
    end
  else Some (books, None, log).

(** Lines 106-157. *)
Definition getBooks (fuel : nat) (up : Upstream) (query : string) (limit : Z)
    (log : list string) : option Outcome :=
  let books : list Book := [] in
  let q := QueryEscape query in
  let limit := clampLimit limit in
  if limit =? 0 then Some ([], None, log)
  else fetchLoop fuel up (volumesURL q) limit books log.

(** *** The [/books] handler, lines 51-99 *)

(** The anonymous struct that is marshalled on success. *)
Record response : Type := mkResponse {
  Query : string;
  Total : Z;
  Books : list Book
}.

(** What is written to the [http.ResponseWriter]: a literal message, the
    message built from [Atoi]'s error, or the marshalled [response] (kept as
    the value: the wire format is not modelled, and [json.Marshal] has no
    failing case on a struct of strings, integers and slices of them). *)
Inductive Body : Type :=
  | Text (msg : string)
  | ProcessingLimit (limit : string) (err : NumError)
  | Json (r : response).

Record HttpResponse : Type := mkHttp { status : Z; body : Body }.

(** The handler's body with the call of the aggregator as a parameter. *)
Definition booksHandlerWith
    (aggregate : string -> Z -> list string -> option Outcome)
    (form : gmap string (list string)) (log : list string)
  : option (HttpResponse * list string) :=
  let query := Get form "query" in
  if String.eqb query "" then
    Some (mkHttp StatusBadRequest (Text "query is required"), log)
  else
    let limit := Get form "limit" in
    if String.eqb limit "" then
      Some (mkHttp StatusBadRequest (Text "limit is required"), log)
    else
      match Atoi limit with
      | inr err =>
          Some (mkHttp StatusBadRequest (ProcessingLimit limit err), log)
      | inl l =>
          if l <? 0 then
            Some (mkHttp StatusBadRequest
                    (Text "limit cant be a negative number"), log)
          else
            match aggregate query l log with
            | None => None
            | Some (_, Some err, log') =>
                Some (mkHttp StatusInternalServerError
                        (Text ("getting books: " +:+ err)), log')
            | Some (books, None, log') =>
                Some (mkHttp StatusOK
                        (Json (mkResponse query (Z.of_nat (length books)) books)),
                      log')
            end
      end.

(** The handler as registered: the aggregator is [getBooks]. *)
Definition booksHandler (fuel : nat) (up : Upstream)
    (form : gmap string (list string)) (log : list string)
  : option (HttpResponse * list string) :=
  booksHandlerWith (getBooks fuel up) form log.

(** *** Vocabulary for the statements *)

(** The candidates of a page that the validator lets through, as books, in
    page order. *)
Definition accepted (items : list Item) : list Book :=
  map (fun item => mkBook (volumeInfo item))
      (filter (fun item => hasEmptyInformation (volumeInfo item) = false) items).

(** The upstream serves the pages [pages], in this order, to the requests
    number [n], [n+1], ... for [url]. *)
Definition serves (up : Upstream) (url : string) (n : nat)
    (pages : list (list Item)) : Prop :=
  forall i items, pages !! i = Some items -> up (n + i)%nat url = Items items.

(** How many more books the buffer takes before it reaches [limit]. *)
Definition room (limit : Z) (books : list Book) : nat :=
  Z.to_nat (limit - Z.of_nat (length books)).

(** No page of the list is empty. *)
Definition nonempty_pages (pages : list (list Item)) : Prop :=
  Forall (fun items => items <> []) pages.

(** Stub upstreams: one that replays a script of outcomes and is exhausted
    (empty pages) afterwards, and one that answers every request with the
    same page. *)
Definition replay (script : list (Response Item)) : Upstream :=
  fun n _ => match script !! n with
             | Some r => r
             | None => Items []
             end.

Definition samePage (items : list Item) : Upstream :=
  fun _ _ => Items items.

End Aggregator.

Arguments Book : clear implicits.
Arguments Item : clear implicits.
Arguments Upstream : clear implicits.
Arguments Outcome : clear implicits.
Arguments response : clear implicits.
Arguments Body : clear implicits.
Arguments HttpResponse : clear implicits.

(** ** The baseline variant: [main.go] *)

Module Baseline.

(** The anonymous struct of the field [Images]. *)
Record ImageLinks : Type := mkImages {
  Small : string;
  Normal : string
}.

Record BookInformation : Type := mkInfo {
  Title : string;
  Description : string;
  Authors : list string;
  Pages : Z;
  Images : ImageLinks
}.

(** Lines 159-166. *)
Definition hasEmptyInformation (bookInformation : BookInformation) : bool :=
  (Pages bookInformation =? 0)
  || String.eqb (Description bookInformation) ""
  || (length (Authors bookInformation) =? 0)%nat
  || String.eqb (Normal (Images bookInformation)) ""
  || String.eqb (Small (Images bookInformation)) ""
  || String.eqb (Title bookInformation) "".

(** The completeness predicate in the words of the specification (section
    4.2): every text and list is non-empty and the page count is strictly
    positive. *)
Definition isComplete (r : BookInformation) : bool :=
  negb (String.eqb (Title r) "")
  && negb (String.eqb (Description r) "")
  && negb (length (Authors r) =? 0)%nat
  && (0 <? Pages r)
  && negb (String.eqb (Small (Images r)) "")
  && negb (String.eqb (Normal (Images r)) "").

Definition getBooks := getBooks hasEmptyInformation.
Definition booksHandler := booksHandler hasEmptyInformation.

(** Sample records. *)
Definition cover : ImageLinks := mkImages "http://img/s.png" "http://img/n.png".

Definition dune : BookInformation :=
  mkInfo "Dune" "Arrakis" ["Frank Herbert"] 412 cover.
Definition emma : BookInformation :=
  mkInfo "Emma" "Highbury" ["Jane Austen"] 474 cover.
Definition ulysses : BookInformation :=
  mkInfo "Ulysses" "Dublin" ["James Joyce"] 730 cover.
Definition walden : BookInformation :=
  mkInfo "Walden" "A pond" ["Henry Thoreau"] 352 cover.
Definition utopia : BookInformation :=
  mkInfo "Utopia" "An island" ["Thomas More"] 135 cover.

(** A record without a title, one without authors, and one whose page
    count is negative. *)
Definition untitled : BookInformation :=
  mkInfo "" "Fragments" ["Anonymous"] 12 cover.
Definition orphan : BookInformation :=
  mkInfo "Beowulf" "A poem" [] 98 cover.
Definition erratum : BookInformation :=
  mkInfo "Erratum" "A misprint" ["Nobody"] (-1) cover.

Definition fivePage : list (Item BookInformation) :=
  map mkItem [dune; emma; ulysses; walden; utopia].

Definition mixedPage : list (Item BookInformation) :=
  map mkItem [untitled; dune; orphan; untitled; emma].

Definition erratumPage : list (Item BookInformation) :=
  map mkItem [erratum; dune].

Definition untitledPage : list (Item BookInformation) :=
  map mkItem [untitled].

(** The candidates of a page that are complete in the words of section
    4.2, as books, in page order. *)
Definition complete (items : list (Item BookInformation))
  : list (Book BookInformation) :=
  map (fun item => mkBook (volumeInfo item))
      (filter (fun item => isComplete (volumeInfo item) = true) items).

End Baseline.

(** ** The extended variant: the sibling source file with [Categories] *)

Module Extended.

Record ImageLinks : Type := mkImages {
  Small : string;
  Normal : string
}.

Record BookInformation : Type := mkInfo {
  Title : string;
  Description : string;
  Authors : list string;
  Categories : list string;
  Pages : Z;
  Images : ImageLinks
}.

(** Lines 154-162 of the sibling file. *)
Definition hasEmptyInformation (bookInformation : BookInformation) : bool :=
  (Pages bookInformation =? 0)
  || String.eqb (Description bookInformation) ""
  || (length (Authors bookInformation) =? 0)%nat
  || String.eqb (Normal (Images bookInformation)) ""
  || String.eqb (Small (Images bookInformation)) ""
  || String.eqb (Title bookInformation) ""
  || (length (Categories bookInformation) =? 0)%nat.

(** Section 4.2 in the extended variant: the category list is non-empty
    too. *)
Definition isComplete (r : BookInformation) : bool :=
  negb (String.eqb (Title r) "")
  && negb (String.eqb (Description r) "")
  && negb (length (Authors r) =? 0)%nat
  && (0 <? Pages r)
  && negb (String.eqb (Small (Images r)) "")
  && negb (String.eqb (Normal (Images r)) "")
  && negb (length (Categories r) =? 0)%nat.

Definition getBooks := getBooks hasEmptyInformation.

(** The [/books] handler of the sibling file, lines 46-90: the text of the
    baseline handler, except that a [limit] that does not parse is answered
    with the literal message [invalid limit] (line 57). *)
Definition booksHandlerWith
    (aggregate : string -> Z -> list string
                 -> option (Outcome BookInformation))
    (form : gmap string (list string)) (log : list string)
  : option (HttpResponse BookInformation * list string) :=
  let query := Get form "query" in
  if String.eqb query "" then
    Some (mkHttp StatusBadRequest (Text "query is required"), log)
  else
    let limit := Get form "limit" in
    if String.eqb limit "" then
      Some (mkHttp StatusBadRequest (Text "limit is required"), log)
    else
      match Atoi limit with
      | inr err =>
          Some (mkHttp StatusBadRequest (Text "invalid limit"), log)
      | inl l =>
          if l <? 0 then
            Some (mkHttp StatusBadRequest
                    (Text "limit cant be a negative number"), log)
          else
            match aggregate query l log with
            | None => None
            | Some (_, Some err, log') =>
                Some (mkHttp StatusInternalServerError
                        (Text ("getting books: " +:+ err)), log')
            | Some (books, None, log') =>
                Some (mkHttp StatusOK
                        (Json (mkResponse query (Z.of_nat (length books)) books)),
                      log')
            end
      end.

Definition booksHandler (fuel : nat) (up : Upstream BookInformation)
    (form : gmap string (list string)) (log : list string)
  : option (HttpResponse BookInformation * list string) :=
  booksHandlerWith (getBooks fuel up) form log.

End Extended.

(** The parsed query string of [GET /books?query=...&limit=...]. *)
Definition params (query limit : string) : gmap string (list string) :=
  <["query" := [query]]> (<["limit" := [limit]]> ∅).

(** The URL requested for the query [dune]. *)
Definition duneURL : string :=
  "https://www.googleapis.com/books/v1/volumes?q=dune".

(** ** The rest of [main] *)

(** [os.Getenv]: the value of the variable, the empty string when it is
    not set. *)
Definition Getenv (env : gmap string string) (key : string) : string :=
  default "" (env !! key).

(** The address handed to [http.ListenAndServe] by the extended variant
    (lines 92-96 of the sibling file): [":" + port], where [port] is the
    environment variable [PORT], or [8080] when that is empty. *)
Definition listenAddress (env : gmap string string) : string :=
  let port := Getenv env "PORT" in
  let port := if String.eqb port "" then "8080" else port in
  ":" +:+ port.

(** ** The two variants side by side *)

(** A record of the extended variant without its categories: the record
    that the baseline variant decodes from the same volume. *)
Definition forgetCategories (r : Extended.BookInformation)
  : Baseline.BookInformation :=
  Baseline.mkInfo (Extended.Title r) (Extended.Description r)
    (Extended.Authors r) (Extended.Pages r)
    (Baseline.mkImages (Extended.Small (Extended.Images r))
                       (Extended.Normal (Extended.Images r))).

(** * Properties *)

(** ** The scan of one page and the fetch loop *)

Section AggregatorFacts.

Context {BookInformation : Type}.
Variable hasEmptyInformation : BookInformation -> bool.

Abbreviation Book := (Book BookInformation).
Abbreviation Item := (Item BookInformation).
Abbreviation Upstream := (Upstream BookInformation).
Abbreviation accepted := (accepted hasEmptyInformation).
Abbreviation scanItems := (scanItems hasEmptyInformation).
Abbreviation fetchLoop := (fetchLoop hasEmptyInformation).
Abbreviation getBooks := (getBooks hasEmptyInformation).

Lemma accepted_eq (items : list Item) :
  accepted items
  = map (fun item => mkBook (volumeInfo item))
        (filter (fun item => hasEmptyInformation (volumeInfo item) = false)
                items).
Proof. reflexivity. Qed.

Lemma accepted_nil : accepted [] = [].
Proof. reflexivity. Qed.

Lemma accepted_cons_skip (item : Item) items :
  hasEmptyInformation (volumeInfo item) = true ->
  accepted (item :: items) = accepted items.
Proof.
  intros Hempty. rewrite !accepted_eq.
  rewrite filter_cons_False; [reflexivity | congruence].
Qed.

Lemma accepted_cons_keep (item : Item) items :
  hasEmptyInformation (volumeInfo item) = false ->
  accepted (item :: items) = mkBook (volumeInfo item) :: accepted items.
Proof.
  intros Hfull. rewrite !accepted_eq.
  rewrite filter_cons_True by assumption. reflexivity.
Qed.

Lemma accepted_app (l1 l2 : list Item) :
  accepted (l1 ++ l2) = accepted l1 ++ accepted l2.
Proof. rewrite !accepted_eq. now rewrite filter_app, List.map_app. Qed.

Lemma accepted_Forall (items : list Item) :
  Forall (fun b => hasEmptyInformation (book_information b) = false)
         (accepted items).
Proof.
  induction items as [|item items IH]; [constructor|].
  destruct (hasEmptyInformation (volumeInfo item)) eqn:E.
  - now rewrite accepted_cons_skip.
  - rewrite accepted_cons_keep by assumption. now constructor.
Qed.

(** The scan appends the accepted candidates of the page, in page order,
    as long as there is room. *)
Lemma scanItems_spec limit (items : list Item) (books : list Book) :
  scanItems limit items books
  = books ++ take (room limit books) (accepted items).
Proof.
  revert books. induction items as [|item items IH]; intros books; simpl.
  - now rewrite accepted_nil, take_nil, app_nil_r.
  - destruct (Z.geb_spec (Z.of_nat (length books)) limit) as [Hfull|Hroom].
    + unfold room. replace (Z.to_nat _) with 0%nat by lia.
      now rewrite take_0, app_nil_r.
    + destruct (hasEmptyInformation (volumeInfo item)) eqn:E.
      * rewrite IH. now rewrite accepted_cons_skip.
      * rewrite IH, accepted_cons_keep by assumption.
        unfold room. rewrite length_app. simpl.
        replace (Z.to_nat (limit - Z.of_nat (length books)))
          with (S (Z.to_nat (limit - Z.of_nat (length books + 1)))) by lia.
        simpl. now rewrite <- app_assoc.
Qed.

Lemma scanItems_fits limit (items : list Item) (books : list Book) :
  Z.of_nat (length (books ++ accepted items)) <= limit ->
  scanItems limit items books = books ++ accepted items.
Proof.
  intros Hfit. rewrite scanItems_spec, take_ge; [reflexivity|].
  unfold room. rewrite length_app in Hfit. lia.
Qed.

(** One turn of the loop, case by case. *)
Lemma fetchLoop_done fuel (up : Upstream) url limit books log :
  limit <= Z.of_nat (length books) ->
  fetchLoop fuel up url limit books log = Some (books, None, log).
Proof.
  intros Hfull. destruct fuel; simpl;
    destruct (Z.ltb_spec (Z.of_nat (length books)) limit); auto; lia.
Qed.

Lemma fetchLoop_out_of_fuel (up : Upstream) url limit books log :
  Z.of_nat (length books) < limit ->
  fetchLoop 0 up url limit books log = None.
Proof.
  intros Hroom. simpl.
  destruct (Z.ltb_spec (Z.of_nat (length books)) limit); auto; lia.
Qed.

Lemma fetchLoop_get_error fuel (up : Upstream) url limit books log err :
  Z.of_nat (length books) < limit ->
  up (length log) url = GetError err ->
  fetchLoop (S fuel) up url limit books log
  = Some ([], Some ("making GET request: " +:+ err), log ++ [url]).
Proof.
  intros Hroom Hup. simpl. rewrite Hup.
  destruct (Z.ltb_spec (Z.of_nat (length books)) limit); auto; lia.
Qed.

Lemma fetchLoop_decode_error fuel (up : Upstream) url limit books log err :
  Z.of_nat (length books) < limit ->
  up (length log) url = DecodeError err ->
  fetchLoop (S fuel) up url limit books log = Some ([], Some err, log ++ [url]).
Proof.
  intros Hroom Hup. simpl. rewrite Hup.
  destruct (Z.ltb_spec (Z.of_nat (length books)) limit); auto; lia.
Qed.

Lemma fetchLoop_empty_page fuel (up : Upstream) url limit books log :
  Z.of_nat (length books) < limit ->
  up (length log) url = Items [] ->
  fetchLoop (S fuel) up url limit books log = Some (books, None, log ++ [url]).
Proof.
  intros Hroom Hup. simpl. rewrite Hup. simpl.
  destruct (Z.ltb_spec (Z.of_nat (length books)) limit); [|lia].
  destruct books; reflexivity.
Qed.

Lemma fetchLoop_page fuel (up : Upstream) url limit books log items :
  Z.of_nat (length books) < limit ->
  up (length log) url = Items items ->
  items <> [] ->
  fetchLoop (S fuel) up url limit books log
  = fetchLoop fuel up url limit (scanItems limit items books) (log ++ [url]).
Proof.
  intros Hroom Hup Hne. simpl. rewrite Hup.
  destruct (Z.ltb_spec (Z.of_nat (length books)) limit); [|lia].
  destruct items; [congruence | reflexivity].
Qed.

(** *** Runs over several pages *)

Lemma serves_nil (up : Upstream) url n : serves up url n [].
Proof. intros i items Hi. rewrite lookup_nil in Hi. discriminate. Qed.

Lemma serves_cons (up : Upstream) url n items pages :
  serves up url n (items :: pages) <->
  up n url = Items items /\ serves up url (S n) pages.
Proof.
  split.
  - intros Hs. split.
    + specialize (Hs 0%nat items eq_refl). now rewrite Nat.add_0_r in Hs.
    + intros i its Hi. specialize (Hs (S i) its Hi).
      now replace (S n + i)%nat with (n + S i)%nat by lia.
  - intros [H0 Hs] [|i] its Hi; simpl in Hi.
    + injection Hi as <-. now rewrite Nat.add_0_r.
    + replace (n + S i)%nat with (S n + i)%nat by lia. now apply Hs.
Qed.

Lemma log_step (log : list string) url :
  length (log ++ [url]) = S (length log).
Proof. rewrite length_app. simpl. lia. Qed.

Lemma log_replicate (log : list string) url n :
  (log ++ [url]) ++ replicate n url = log ++ replicate (S n) url.
Proof. now rewrite <- app_assoc. Qed.

(** More fuel never changes a result. *)
Lemma fetchLoop_more_fuel (up : Upstream) url limit fuel extra books log r :
  fetchLoop fuel up url limit books log = Some r ->
  fetchLoop (fuel + extra) up url limit books log = Some r.
Proof.
  revert books log. induction fuel as [|fuel IH]; intros books log.
  - destruct (Z.lt_ge_cases (Z.of_nat (length books)) limit) as [Hroom|Hfull].
    + now rewrite fetchLoop_out_of_fuel.
    + rewrite !fetchLoop_done by lia. auto.
  - simpl. destruct (Z.of_nat (length books) <? limit); [|auto].
    destruct (up (length log) url) as [e|e|items]; auto.
    destruct ((length items =? 0)%nat && (length books =? 0)%nat); auto.
    destruct (length items =? 0)%nat; auto.
Qed.

(** While the buffer stays below the limit, every non-empty page costs one
    request and contributes all its accepted candidates. *)
Lemma fetchLoop_through (up : Upstream) url limit pages :
  forall books log fuel,
    serves up url (length log) pages ->
    nonempty_pages pages ->
    Z.of_nat (length (books ++ accepted (concat pages))) < limit ->
    fetchLoop (length pages + fuel) up url limit books log
    = fetchLoop fuel up url limit (books ++ accepted (concat pages))
        (log ++ replicate (length pages) url).
Proof.
  induction pages as [|items pages IH]; intros books log fuel Hs Hne Hlt.
  - simpl. now rewrite accepted_nil, !app_nil_r.
  - apply serves_cons in Hs as [H0 Hs].
    apply Forall_cons in Hne as [Hitems Hne].
    simpl concat in *. rewrite accepted_app in *.
    rewrite !length_app in Hlt.
    change (length (items :: pages) + fuel)%nat
      with (S (length pages + fuel)).
    rewrite (fetchLoop_page _ _ _ _ _ _ items) by (auto; lia).
    rewrite scanItems_fits by (rewrite length_app; lia).
    rewrite IH.
    + now rewrite log_replicate, <- app_assoc.
    + now rewrite log_step.
    + assumption.
    + rewrite !length_app. lia.
Qed.

(** Once the pages hold enough accepted candidates, the loop returns the
    buffer filled up to the limit with the first of them. *)
Lemma fetchLoop_fills (up : Upstream) url limit pages :
  forall books log fuel,
    serves up url (length log) pages ->
    nonempty_pages pages ->
    limit <= Z.of_nat (length (books ++ accepted (concat pages))) ->
    (length pages <= fuel)%nat ->
    exists calls, (calls <= length pages)%nat /\
      fetchLoop fuel up url limit books log
      = Some (books ++ take (room limit books) (accepted (concat pages)),
              None, log ++ replicate calls url).
Proof.
  induction pages as [|items pages IH]; intros books log fuel Hs Hne Hge Hfuel.
  - exists 0%nat. split; [lia|].
    simpl in Hge. rewrite accepted_nil, app_nil_r in Hge.
    rewrite fetchLoop_done by lia.
    simpl. now rewrite accepted_nil, take_nil, !app_nil_r.
  - destruct (Z.lt_ge_cases (Z.of_nat (length books)) limit) as [Hroom|Hfull].
    + apply serves_cons in Hs as [H0 Hs].
      apply Forall_cons in Hne as [Hitems Hne].
      destruct fuel as [|fuel]; [simpl in Hfuel; lia|].
      simpl in Hfuel. simpl concat in *. rewrite accepted_app in *.
      rewrite !length_app in Hge.
      rewrite (fetchLoop_page _ _ _ _ _ _ items) by auto.
      rewrite scanItems_spec.
      destruct (IH (books ++ take (room limit books) (accepted items))
                  (log ++ [url]) fuel) as (calls & Hcalls & Hrun).
      * now rewrite log_step.
      * assumption.
      * rewrite !length_app, length_take. unfold room. lia.
      * lia.
      * exists (S calls). split; [simpl; lia|].
        rewrite Hrun, log_replicate, take_app, <- app_assoc.
        do 4 f_equal. unfold room.
        rewrite length_app, length_take. do 2 f_equal. lia.
    + exists 0%nat. split; [lia|].
      rewrite fetchLoop_done by lia.
      unfold room. replace (Z.to_nat _) with 0%nat by lia.
      simpl. now rewrite !app_nil_r.
Qed.

(** A run that returns has met a failure or an empty page, or has seen
    enough accepted candidates. *)
Lemma fetchLoop_stops_inv (up : Upstream) url limit fuel :
  forall books log r,
    fetchLoop fuel up url limit books log = Some r ->
    exists pages,
      serves up url (length log) pages /\ nonempty_pages pages /\
      (limit <= Z.of_nat (length (books ++ accepted (concat pages))) \/
       ends (up (length log + length pages)%nat url) = true).
Proof.
  induction fuel as [|fuel IH]; intros books log r Hrun.
  - destruct (Z.lt_ge_cases (Z.of_nat (length books)) limit) as [Hroom|Hfull].
    + now rewrite fetchLoop_out_of_fuel in Hrun.
    + exists []. split; [apply serves_nil|]. split; [constructor|].
      left. simpl. rewrite accepted_nil, app_nil_r. lia.
  - destruct (Z.lt_ge_cases (Z.of_nat (length books)) limit) as [Hroom|Hfull].
    + destruct (up (length log) url) as [e|e|items] eqn:Hup.
      * exists []. split; [apply serves_nil|]. split; [constructor|].
        right. simpl. now rewrite Nat.add_0_r, Hup.
      * exists []. split; [apply serves_nil|]. split; [constructor|].
        right. simpl. now rewrite Nat.add_0_r, Hup.
      * destruct items as [|item items].
        { exists []. split; [apply serves_nil|]. split; [constructor|].
          right. simpl. now rewrite Nat.add_0_r, Hup. }
        rewrite (fetchLoop_page _ _ _ _ _ _ (item :: items)) in Hrun
          by (auto; congruence).
        apply IH in Hrun as (pages & Hs & Hne & Hstop).
        rewrite log_step in Hs, Hstop.
        exists ((item :: items) :: pages).
        split; [now apply serves_cons|]. split; [now constructor|].
        destruct Hstop as [Hge|Hend].
        -- left. rewrite concat_cons, accepted_app.
           rewrite scanItems_spec in Hge.
           rewrite !length_app in *. rewrite length_take in Hge. lia.
        -- right. simpl length.
           now replace (length log + S (length pages))%nat
             with (S (length log) + length pages)%nat by lia.
    + exists []. split; [apply serves_nil|]. split; [constructor|].
      left. simpl. rewrite accepted_nil, app_nil_r. lia.
Qed.

(** Every book of a result was accepted by the validator, and the result
    is no longer than the limit (or than the buffer it started from). *)
Lemma fetchLoop_sound (up : Upstream) url limit fuel :
  forall books log books' err log',
    fetchLoop fuel up url limit books log = Some (books', err, log') ->
    Forall (fun b => hasEmptyInformation (book_information b) = false) books ->
    Forall (fun b => hasEmptyInformation (book_information b) = false) books'
    /\ Z.of_nat (length books') <= Z.max limit (Z.of_nat (length books)).
Proof.
  induction fuel as [|fuel IH]; intros books log books' err log' Hrun Hok.
  - destruct (Z.lt_ge_cases (Z.of_nat (length books)) limit) as [Hroom|Hfull].
    + now rewrite fetchLoop_out_of_fuel in Hrun.
    + rewrite fetchLoop_done in Hrun by lia.
      injection Hrun as <- <- <-. split; [assumption | lia].
  - destruct (Z.lt_ge_cases (Z.of_nat (length books)) limit) as [Hroom|Hfull].
    + destruct (up (length log) url) as [e|e|items] eqn:Hup.
      * rewrite (fetchLoop_get_error _ _ _ _ _ _ e) in Hrun by auto.
        injection Hrun as <- <- <-. split; [constructor | simpl; lia].
      * rewrite (fetchLoop_decode_error _ _ _ _ _ _ e) in Hrun by auto.
        injection Hrun as <- <- <-. split; [constructor | simpl; lia].
      * destruct items as [|item items].
        { rewrite fetchLoop_empty_page in Hrun by auto.
          injection Hrun as <- <- <-. split; [assumption | lia]. }
        rewrite (fetchLoop_page _ _ _ _ _ _ (item :: items)) in Hrun
          by (auto; congruence).
        apply IH in Hrun as [Hok' Hlen].
        -- split; [assumption|].
           rewrite scanItems_spec, length_app, length_take in Hlen.
           unfold room in Hlen. lia.
        -- rewrite scanItems_spec. apply Forall_app. split; [assumption|].
           apply Forall_take, accepted_Forall.
    + rewrite fetchLoop_done in Hrun by lia.
      injection Hrun as <- <- <-. split; [assumption | lia].
Qed.

(** An upstream that keeps answering with one non-empty page, none of whose
    candidates is accepted, starves the loop: no amount of fuel is enough. *)
Lemma fetchLoop_starves (up : Upstream) url limit items :
  (forall n, up n url = Items items) ->
  items <> [] ->
  accepted items = [] ->
  forall fuel books log,
    Z.of_nat (length books) < limit ->
    fetchLoop fuel up url limit books log = None.
Proof.
  intros Hup Hne Hnone. induction fuel as [|fuel IH]; intros books log Hroom.
  - now apply fetchLoop_out_of_fuel.
  - rewrite (fetchLoop_page _ _ _ _ _ _ items) by auto.
    rewrite scanItems_spec, Hnone, take_nil, app_nil_r. now apply IH.
Qed.

(** *** [getBooks] *)

Lemma getBooks_eq fuel (up : Upstream) query limit log :
  getBooks fuel up query limit log
  = if clampLimit limit =? 0 then Some ([], None, log)
    else fetchLoop fuel up (volumesURL (QueryEscape query)) (clampLimit limit)
           [] log.
Proof. reflexivity. Qed.

Lemma getBooks_positive fuel (up : Upstream) query limit log :
  0 < clampLimit limit ->
  getBooks fuel up query limit log
  = fetchLoop fuel up (volumesURL (QueryEscape query)) (clampLimit limit) [] log.
Proof.
  intros Hpos. rewrite getBooks_eq.
  destruct (Z.eqb_spec (clampLimit limit) 0); [lia | reflexivity].
Qed.

Lemma clampLimit_min limit : clampLimit limit = Z.min limit maxLimit.
Proof.
  unfold clampLimit. destruct (Z.gtb_spec limit maxLimit); lia.
Qed.

Lemma getBooks_nonpositive fuel (up : Upstream) query limit log :
  limit <= 0 ->
  getBooks fuel up query limit log = Some ([], None, log).
Proof.
  intros Hle. rewrite getBooks_eq.
  assert (Hc : clampLimit limit = limit).
  { rewrite clampLimit_min. unfold maxLimit. lia. }
  rewrite Hc. destruct (Z.eqb_spec limit 0); [reflexivity|].
  now rewrite fetchLoop_done by (simpl; lia).
Qed.

Lemma getBooks_sound fuel (up : Upstream) query limit log books err log' :
  getBooks fuel up query limit log = Some (books, err, log') ->
  Forall (fun b => hasEmptyInformation (book_information b) = false) books
  /\ Z.of_nat (length books) <= Z.max 0 (clampLimit limit).
Proof.
  rewrite getBooks_eq. destruct (Z.eqb_spec (clampLimit limit) 0) as [E|E].
  - intros Hrun. injection Hrun as <- <- <-. split; [constructor | simpl; lia].
  - intros Hrun. apply fetchLoop_sound in Hrun as [Hok Hlen]; [|constructor].
    split; [assumption | simpl in Hlen; lia].
Qed.

(** What a 200 response of the handler says about the call of [getBooks]
    behind it. *)
Lemma booksHandler_ok_inv fuel (up : Upstream) form log st r log' :
  booksHandler hasEmptyInformation fuel up form log
  = Some (mkHttp st (Json r), log') ->
  exists l,
    Atoi (Get form "limit") = inl l /\ 0 <= l /\
    getBooks fuel up (Get form "query") l log = Some (Books r, None, log') /\
    Query r = Get form "query" /\
    Total r = Z.of_nat (length (Books r)) /\
    st = StatusOK.
Proof.
  unfold booksHandler, booksHandlerWith.
  destruct (String.eqb (Get form "query") ""); [discriminate|].
  destruct (String.eqb (Get form "limit") ""); [discriminate|].
  destruct (Atoi (Get form "limit")) as [l|e]; [|discriminate].
  destruct (Z.ltb_spec l 0); [discriminate|].
  destruct (getBooks fuel up (Get form "query") l log)
    as [[[books [e|]] lg]|] eqn:Hrun; try discriminate.
  intros H'. injection H' as <- <- <-. exists l. simpl. auto 10.
Qed.

(** *** The aggregator's contract *)

(** C1, as amended.  For every query and every positive clamped limit [L]:
    when the non-empty pages that the upstream serves, concatenated in
    arrival order, contain at least [L] candidates that the validator
    accepts, [getBooks] (given one unit of fuel per page) returns without
    error exactly the first [L] accepted candidates in arrival order: the
    rejected ones are skipped wherever they occur, the result has length
    [L], and no more requests are made than there are pages. *)
Theorem getBooks_first_accepted (up : Upstream) query limit log pages fuel :
  0 < clampLimit limit ->
  serves up (volumesURL (QueryEscape query)) (length log) pages ->
  nonempty_pages pages ->
  clampLimit limit <= Z.of_nat (length (accepted (concat pages))) ->
  (length pages <= fuel)%nat ->
  exists books calls,
    getBooks fuel up query limit log
    = Some (books, None,
            log ++ replicate calls (volumesURL (QueryEscape query)))
    /\ books = take (Z.to_nat (clampLimit limit)) (accepted (concat pages))
    /\ Z.of_nat (length books) = clampLimit limit
    /\ (calls <= length pages)%nat.
Proof.
  intros Hpos Hs Hne Hge Hfuel.
  destruct (fetchLoop_fills up (volumesURL (QueryEscape query)) (clampLimit limit) pages [] log fuel)
    as (calls & Hcalls & Hrun); auto.
  exists (take (Z.to_nat (clampLimit limit)) (accepted (concat pages))), calls.
  rewrite getBooks_positive by assumption.
  split; [|split; [reflexivity|split; [|assumption]]].
  - rewrite Hrun. unfold room. simpl. now rewrite Z.sub_0_r.
  - rewrite length_take. lia.
Qed.

(** C3, as amended.  [getBooks] terminates exactly when the upstream, after
    some run of non-empty pages, has either supplied as many accepted
    candidates as the clamped limit asks for (none, for a limit that is not
    positive), or answers the next request with a failure or an empty
    page. *)
Theorem getBooks_terminates_iff (up : Upstream) query limit log :
  (exists fuel r, getBooks fuel up query limit log = Some r) <->
  (exists pages,
      serves up (volumesURL (QueryEscape query)) (length log) pages /\
      nonempty_pages pages /\
      (clampLimit limit <= Z.of_nat (length (accepted (concat pages))) \/
       ends (up (length log + length pages)%nat
               (volumesURL (QueryEscape query))) = true)).
Proof.
  split.
  - intros (fuel & r & Hrun). rewrite getBooks_eq in Hrun.
    destruct (Z.eqb_spec (clampLimit limit) 0) as [E|E].
    + exists []. split; [apply serves_nil|]. split; [constructor|].
      left. simpl. lia.
    + apply fetchLoop_stops_inv in Hrun. exact Hrun.
  - intros (pages & Hs & Hne & Hstop).
    destruct (Z.le_gt_cases (clampLimit limit)
                (Z.of_nat (length (accepted (concat pages))))) as [Hge|Hlt].
    + destruct (Z.le_gt_cases (clampLimit limit) 0) as [Hle|Hpos].
      * exists 0%nat. rewrite getBooks_eq.
        destruct (clampLimit limit =? 0); [eauto|].
        rewrite fetchLoop_done by (simpl; lia). eauto.
      * destruct (fetchLoop_fills up (volumesURL (QueryEscape query)) (clampLimit limit) pages [] log
                    (length pages)) as (calls & _ & Hrun); auto.
        exists (length pages). rewrite getBooks_positive by lia. eauto.
    + destruct Hstop as [Hge|Hend]; [lia|].
      exists (length pages + 1)%nat.
      rewrite getBooks_positive by lia.
      rewrite fetchLoop_through by auto.
      rewrite app_nil_l.
      assert (Hidx : length (log ++ replicate (length pages)
                               (volumesURL (QueryEscape query)))
                     = (length log + length pages)%nat)
        by now rewrite length_app, length_replicate.
      destruct (up (length log + length pages)%nat
                  (volumesURL (QueryEscape query))) as [e|e|[|item items]]
        eqn:Hup; try discriminate.
      * rewrite (fetchLoop_get_error _ _ _ _ _ _ e) by (rewrite ?Hidx; auto).
        eauto.
      * rewrite (fetchLoop_decode_error _ _ _ _ _ _ e)
          by (rewrite ?Hidx; auto).
        eauto.
      * rewrite fetchLoop_empty_page by (rewrite ?Hidx; auto). eauto.
Qed.

(** C4.  The limit that [getBooks] works with is [min(requested, 50)]: a
    request above the ceiling is served as a request for 50, and a
    successful result never holds more than 50 books, so the total that the
    handler reports never exceeds 50.  The cap is 50 itself: [getBooks] is
    the fetch loop run with the limit [min(requested, 50)] (or the
    immediate empty result when that is 0), and when the non-empty pages
    served hold at least [min(requested, 50)] accepted candidates it
    returns exactly that many, 50 for every request above 50. *)
Theorem effective_limit_is_min (up : Upstream) fuel query limit form log :
  maxLimit = 50 /\
  clampLimit limit = Z.min limit maxLimit /\
  (maxLimit < limit -> clampLimit limit = maxLimit) /\
  getBooks fuel up query limit log
  = getBooks fuel up query (Z.min limit maxLimit) log /\
  (forall books log',
      getBooks fuel up query limit log = Some (books, None, log') ->
      Z.of_nat (length books) <= maxLimit) /\
  (forall st r log',
      booksHandler hasEmptyInformation fuel up form log
      = Some (mkHttp st (Json r), log') ->
      Total r <= maxLimit) /\
  getBooks fuel up query limit log
  = (if Z.min limit 50 =? 0 then Some ([], None, log)
     else fetchLoop fuel up (volumesURL (QueryEscape query))
            (Z.min limit 50) [] log) /\
  (forall pages,
      0 < Z.min limit 50 ->
      serves up (volumesURL (QueryEscape query)) (length log) pages ->
      nonempty_pages pages ->
      Z.min limit 50 <= Z.of_nat (length (accepted (concat pages))) ->
      (length pages <= fuel)%nat ->
      exists books calls,
        getBooks fuel up query limit log
        = Some (books, None,
                log ++ replicate calls (volumesURL (QueryEscape query))) /\
        books = take (Z.to_nat (Z.min limit 50)) (accepted (concat pages)) /\
        Z.of_nat (length books) = Z.min limit 50 /\
        (50 < limit -> Z.of_nat (length books) = 50)).
Proof.
  assert (Hmin : clampLimit limit = Z.min limit 50) by apply clampLimit_min.
  split; [reflexivity|]. split; [apply clampLimit_min|].
  split; [rewrite clampLimit_min; lia|].
  split; [|split; [|split; [|split]]].
  4:{ rewrite getBooks_eq, Hmin. reflexivity. }
  4:{ intros pages Hpos Hs Hne Hge Hfuel.
      destruct (fetchLoop_fills up (volumesURL (QueryEscape query))
                  (Z.min limit 50) pages [] log fuel)
        as (calls & Hcalls & Hrun); auto.
      exists (take (Z.to_nat (Z.min limit 50)) (accepted (concat pages))),
        calls.
      rewrite getBooks_positive, Hmin by lia.
      assert (Hlen : Z.of_nat (length (take (Z.to_nat (Z.min limit 50))
                                         (accepted (concat pages))))
                     = Z.min limit 50) by (rewrite length_take; lia).
      split; [|split; [reflexivity|split; [exact Hlen|lia]]].
      rewrite Hrun. unfold room. simpl. now rewrite Z.sub_0_r. }
  - rewrite !getBooks_eq.
    replace (clampLimit (Z.min limit maxLimit)) with (clampLimit limit)
      by (rewrite !clampLimit_min; lia).
    reflexivity.
  - intros books log' Hrun. apply getBooks_sound in Hrun as [_ Hlen].
    rewrite clampLimit_min in Hlen. unfold maxLimit in *. lia.
  - intros st r log' Hok.
    apply booksHandler_ok_inv in Hok as (l & _ & _ & Hrun & _ & -> & _).
    apply getBooks_sound in Hrun as [_ Hlen].
    rewrite clampLimit_min in Hlen. unfold maxLimit in *. lia.
Qed.

(** C5.  When the request that follows a run of non-empty pages, none of
    which filled the buffer, is answered by a page of zero candidates,
    [getBooks] returns without error exactly the buffer accumulated so far,
    the accepted candidates of those pages in arrival order; with an empty
    buffer that is the empty result. *)
Theorem getBooks_empty_page_returns_buffer
    (up : Upstream) query limit log pages fuel :
  serves up (volumesURL (QueryEscape query)) (length log) pages ->
  nonempty_pages pages ->
  Z.of_nat (length (accepted (concat pages))) < clampLimit limit ->
  up (length log + length pages)%nat (volumesURL (QueryEscape query))
  = Items [] ->
  getBooks (length pages + S fuel) up query limit log
  = Some (accepted (concat pages), None,
          log ++ replicate (S (length pages)) (volumesURL (QueryEscape query)))
  /\ (accepted (concat pages) = [] ->
      getBooks (length pages + S fuel) up query limit log
      = Some ([], None,
              log ++ replicate (S (length pages))
                       (volumesURL (QueryEscape query)))).
Proof.
  intros Hs Hne Hlt Hup.
  assert (Hrun : getBooks (length pages + S fuel) up query limit log
                 = Some (accepted (concat pages), None,
                         log ++ replicate (S (length pages))
                                  (volumesURL (QueryEscape query)))).
  { rewrite getBooks_positive by lia.
    rewrite fetchLoop_through by auto. rewrite app_nil_l.
    rewrite fetchLoop_empty_page.
    - now rewrite replicate_S_end, app_assoc.
    - assumption.
    - now rewrite length_app, length_replicate. }
  split; [exact Hrun|]. intros Hnil. now rewrite Hrun, Hnil.
Qed.

(** C6.  When the request that follows a run of non-empty pages, none of
    which filled the buffer, fails in transport or returns a body that does
    not decode, [getBooks] returns an error together with an empty book
    list, whatever had been accumulated, and the failed request is the last
    one made, however much fuel is left. *)
Theorem getBooks_failure_aborts
    (up : Upstream) query limit log pages fuel cause :
  serves up (volumesURL (QueryEscape query)) (length log) pages ->
  nonempty_pages pages ->
  Z.of_nat (length (accepted (concat pages))) < clampLimit limit ->
  (up (length log + length pages)%nat (volumesURL (QueryEscape query))
   = GetError cause ->
   getBooks (length pages + S fuel) up query limit log
   = Some ([], Some ("making GET request: " +:+ cause),
           log ++ replicate (S (length pages))
                    (volumesURL (QueryEscape query))))
  /\
  (up (length log + length pages)%nat (volumesURL (QueryEscape query))
   = DecodeError cause ->
   getBooks (length pages + S fuel) up query limit log
   = Some ([], Some cause,
           log ++ replicate (S (length pages))
                    (volumesURL (QueryEscape query)))).
Proof.
  intros Hs Hne Hlt.
  split; intros Hup; rewrite getBooks_positive by lia;
    rewrite fetchLoop_through by auto; rewrite app_nil_l.
  - rewrite (fetchLoop_get_error _ _ _ _ _ _ cause).
    + now rewrite replicate_S_end, app_assoc.
    + assumption.
    + now rewrite length_app, length_replicate.
  - rewrite (fetchLoop_decode_error _ _ _ _ _ _ cause).
    + now rewrite replicate_S_end, app_assoc.
    + assumption.
    + now rewrite length_app, length_replicate.
Qed.

Lemma Get_params_query query limit : Get (params query limit) "query" = query.
Proof. unfold Get, params. now rewrite lookup_insert_eq. Qed.

Lemma Get_params_limit query limit : Get (params query limit) "limit" = limit.
Proof.
  unfold Get, params.
  rewrite lookup_insert_ne by discriminate. now rewrite lookup_insert_eq.
Qed.

(** C7.  For every query, [getBooks] with limit 0 returns the empty list
    and no error, for every amount of fuel and every upstream, and leaves
    the request log as it was: no upstream call is made.  Through the
    handler, [limit=0] with a non-empty query is answered by 200 with total
    0 and no books, again with the log unchanged. *)
Theorem getBooks_limit_zero (up : Upstream) fuel query log :
  getBooks fuel up query 0 log = Some ([], None, log) /\
  (query <> "" ->
   booksHandler hasEmptyInformation fuel up (params query "0") log
   = Some (mkHttp StatusOK (Json (mkResponse query 0 [])), log)).
Proof.
  split; [reflexivity|]. intros Hquery.
  unfold booksHandler, booksHandlerWith.
  rewrite Get_params_query, Get_params_limit.
  apply String.eqb_neq in Hquery. rewrite Hquery. reflexivity.
Qed.

(** C8, as amended.  For every 200 response of the handler, the reported
    total is the length of the book list, and every record of the list is
    one that the validator accepts ([hasEmptyInformation] is false of it). *)
Theorem result_set_total_and_accepted
    (up : Upstream) fuel form log st r log' :
  booksHandler hasEmptyInformation fuel up form log
  = Some (mkHttp st (Json r), log') ->
  Total r = Z.of_nat (length (Books r)) /\
  Forall (fun b => hasEmptyInformation (book_information b) = false) (Books r).
Proof.
  intros Hok.
  apply booksHandler_ok_inv in Hok as (l & _ & _ & Hrun & _ & Htotal & _).
  split; [assumption|]. now apply getBooks_sound in Hrun as [Hall _].
Qed.

(** C10.  For every query and every strictly negative limit, [getBooks]
    returns the empty list and no error with no upstream call (the log is
    unchanged), for every amount of fuel, zero included: the loop is not
    entered; and the limit it works with is the negative limit itself, not
    0. *)
Theorem getBooks_negative_limit (up : Upstream) fuel query limit log :
  limit < 0 ->
  getBooks fuel up query limit log = Some ([], None, log)
  /\ clampLimit limit = limit
  /\ fetchLoop fuel up (volumesURL (QueryEscape query)) (clampLimit limit)
       [] log
     = Some ([], None, log).
Proof.
  intros Hneg.
  assert (Hc : clampLimit limit = limit).
  { rewrite clampLimit_min. unfold maxLimit. lia. }
  split; [apply getBooks_nonpositive; lia|]. split; [assumption|].
  rewrite Hc. now rewrite fetchLoop_done by (simpl; lia).
Qed.

(** *** The handler's validation *)

Lemma Get_missing (form : gmap string (list string)) key :
  form !! key = None -> Get form key = "".
Proof. intros Hnone. unfold Get. now rewrite Hnone. Qed.

(** C9.  For every request whose [query] parameter is missing or empty,
    whose [limit] parameter is missing, does not parse as an integer, or
    parses to a negative integer, the handler answers with status 400; the
    answer is the same whatever the aggregator is, so the aggregator is not
    invoked, and with [getBooks] in its place the request log is unchanged
    for every upstream and every amount of fuel: no upstream call. *)
Theorem invalid_request_is_rejected (form : gmap string (list string)) log :
  form !! "query" = None \/ Get form "query" = "" \/
  form !! "limit" = None \/
  (exists err, Atoi (Get form "limit") = inr err) \/
  (exists l, Atoi (Get form "limit") = inl l /\ l < 0) ->
  exists b : Body BookInformation,
    StatusBadRequest = 400 /\
    (forall aggregate,
        booksHandlerWith aggregate form log
        = Some (mkHttp StatusBadRequest b, log)) /\
    (forall fuel (up : Upstream),
        booksHandler hasEmptyInformation fuel up form log
        = Some (mkHttp StatusBadRequest b, log)).
Proof.
  intros Hbad.
  assert (Hwith : exists b : Body BookInformation, forall aggregate,
             booksHandlerWith aggregate form log
             = Some (mkHttp StatusBadRequest b, log)).
  { unfold booksHandlerWith.
    destruct (String.eqb_spec (Get form "query") "") as [Hq|Hq]; [eauto|].
    destruct (String.eqb_spec (Get form "limit") "") as [Hl|Hl]; [eauto|].
    destruct (Atoi (Get form "limit")) as [l|err] eqn:Hatoi; [|eauto].
    destruct (Z.ltb_spec l 0) as [Hneg|Hpos]; [eauto|].
    exfalso.
    destruct Hbad as [Hm|[He|[Hm|[[err Herr]|(l' & Hl' & Hneg)]]]].
    - now apply Get_missing in Hm.
    - contradiction.
    - now apply Get_missing in Hm.
    - discriminate.
    - injection Hl' as <-. lia. }
  destruct Hwith as [b Hb]. exists b.
  split; [reflexivity|]. split; [exact Hb|].
  intros fuel up. apply Hb.
Qed.

End AggregatorFacts.

(** ** The validator *)

Lemma length_zero_iff_nil {A : Type} (l : list A) :
  (length l =? 0)%nat = false <-> l <> [].
Proof. destruct l; simpl; split; congruence. Qed.

Lemma baseline_validator_fields (r : Baseline.BookInformation) :
  Baseline.hasEmptyInformation r = false <->
  Baseline.Title r <> "" /\
  Baseline.Description r <> "" /\
  Baseline.Authors r <> [] /\
  Baseline.Pages r <> 0 /\
  Baseline.Small (Baseline.Images r) <> "" /\
  Baseline.Normal (Baseline.Images r) <> "".
Proof.
  unfold Baseline.hasEmptyInformation.
  rewrite !orb_false_iff, Z.eqb_neq, !String.eqb_neq, length_zero_iff_nil.
  tauto.
Qed.

Lemma extended_validator_fields (r : Extended.BookInformation) :
  Extended.hasEmptyInformation r = false <->
  Extended.Title r <> "" /\
  Extended.Description r <> "" /\
  Extended.Authors r <> [] /\
  Extended.Pages r <> 0 /\
  Extended.Small (Extended.Images r) <> "" /\
  Extended.Normal (Extended.Images r) <> "" /\
  Extended.Categories r <> [].
Proof.
  unfold Extended.hasEmptyInformation.
  rewrite !orb_false_iff, Z.eqb_neq, !String.eqb_neq, !length_zero_iff_nil.
  tauto.
Qed.

Lemma baseline_isComplete_fields (r : Baseline.BookInformation) :
  Baseline.isComplete r = true <->
  Baseline.Title r <> "" /\
  Baseline.Description r <> "" /\
  Baseline.Authors r <> [] /\
  0 < Baseline.Pages r /\
  Baseline.Small (Baseline.Images r) <> "" /\
  Baseline.Normal (Baseline.Images r) <> "".
Proof.
  unfold Baseline.isComplete.
  rewrite !andb_true_iff, !negb_true_iff, Z.ltb_lt, !String.eqb_neq,
    length_zero_iff_nil.
  tauto.
Qed.

Lemma extended_isComplete_fields (r : Extended.BookInformation) :
  Extended.isComplete r = true <->
  Extended.Title r <> "" /\
  Extended.Description r <> "" /\
  Extended.Authors r <> [] /\
  0 < Extended.Pages r /\
  Extended.Small (Extended.Images r) <> "" /\
  Extended.Normal (Extended.Images r) <> "" /\
  Extended.Categories r <> [].
Proof.
  unfold Extended.isComplete.
  rewrite !andb_true_iff, !negb_true_iff, Z.ltb_lt, !String.eqb_neq,
    !length_zero_iff_nil.
  tauto.
Qed.

(** C2, as amended.  [hasEmptyInformation] is false of a record exactly
    when its title, description, author list and two thumbnail URLs are
    non-empty and its page count is different from 0 (and, in the extended
    variant, its category list is non-empty); for a record whose page count
    is not negative that is the completeness predicate of section 4.2. *)
Theorem hasEmptyInformation_false_iff :
  (forall r : Baseline.BookInformation,
      Baseline.hasEmptyInformation r = false <->
      Baseline.Title r <> "" /\
      Baseline.Description r <> "" /\
      Baseline.Authors r <> [] /\
      Baseline.Pages r <> 0 /\
      Baseline.Small (Baseline.Images r) <> "" /\
      Baseline.Normal (Baseline.Images r) <> "") /\
  (forall r : Extended.BookInformation,
      Extended.hasEmptyInformation r = false <->
      Extended.Title r <> "" /\
      Extended.Description r <> "" /\
      Extended.Authors r <> [] /\
      Extended.Pages r <> 0 /\
      Extended.Small (Extended.Images r) <> "" /\
      Extended.Normal (Extended.Images r) <> "" /\
      Extended.Categories r <> []) /\
  (forall r : Baseline.BookInformation,
      0 <= Baseline.Pages r ->
      (Baseline.hasEmptyInformation r = false <-> Baseline.isComplete r = true))
  /\
  (forall r : Extended.BookInformation,
      0 <= Extended.Pages r ->
      (Extended.hasEmptyInformation r = false <-> Extended.isComplete r = true)).
Proof.
  split; [exact baseline_validator_fields|].
  split; [exact extended_validator_fields|].
  split; intros r Hpages.
  - rewrite baseline_validator_fields, baseline_isComplete_fields.
    intuition lia.
  - rewrite extended_validator_fields, extended_isComplete_fields.
    intuition lia.
Qed.

Lemma hasEmptyInformation_false_iff_witness :
  Baseline.hasEmptyInformation Baseline.dune = false <->
  Baseline.isComplete Baseline.dune = true.
Proof.
  apply (proj1 (proj2 (proj2 hasEmptyInformation_false_iff)) Baseline.dune).
  simpl. lia.
Defined.

(** The validator lets a record with a negative page count through, which
    section 4.2 calls incomplete. *)
Lemma negative_page_count_passes_validator :
  ~ (Baseline.hasEmptyInformation Baseline.erratum = false <->
     Baseline.isComplete Baseline.erratum = true).
Proof.
  intros [Hfull _]. specialize (Hfull eq_refl). vm_compute in Hfull.
  discriminate.
Qed.

(** ** Runs against stub upstreams *)

(** Section 8: five complete records in one page, limit 3. *)
Example round_trip_first_three :
  Baseline.booksHandler 1 (samePage Baseline.fivePage) (params "dune" "3") []
  = Some (mkHttp 200
            (Json (mkResponse "dune" 3
                     (map mkBook [Baseline.dune; Baseline.emma;
                                  Baseline.ulysses]))),
          [duneURL]).
Proof. vm_compute. reflexivity. Qed.

(** Section 8: two complete and three incomplete records, limit 2. *)
Example mixed_page_keeps_the_complete :
  Baseline.getBooks 1 (samePage Baseline.mixedPage) "dune" 2 []
  = Some (map mkBook [Baseline.dune; Baseline.emma], None, [duneURL]).
Proof. vm_compute. reflexivity. Qed.

(** Section 8: an upstream with nothing to offer. *)
Example no_items_is_not_an_error :
  Baseline.booksHandler 1 (replay []) (params "dune" "3") []
  = Some (mkHttp 200 (Json (mkResponse "dune" 0 [])), [duneURL]).
Proof. vm_compute. reflexivity. Qed.

Example query_is_escaped :
  QueryEscape "war & peace/1" = "war+%26+peace%2F1".
Proof. reflexivity. Qed.

Lemma getBooks_first_accepted_witness :
  exists books calls,
    Baseline.getBooks 2
      (replay [Items Baseline.mixedPage; Items Baseline.fivePage]) "dune" 3 []
    = Some (books, None, [] ++ replicate calls (volumesURL (QueryEscape "dune")))
    /\ books = take (Z.to_nat (clampLimit 3))
                 (accepted Baseline.hasEmptyInformation
                    (concat [Baseline.mixedPage; Baseline.fivePage]))
    /\ Z.of_nat (length books) = clampLimit 3
    /\ (calls <= length [Baseline.mixedPage; Baseline.fivePage])%nat.
Proof.
  apply (getBooks_first_accepted Baseline.hasEmptyInformation
           (replay [Items Baseline.mixedPage; Items Baseline.fivePage])
           "dune" 3 [] [Baseline.mixedPage; Baseline.fivePage] 2).
  - reflexivity.
  - intros [|[|i]] items Hi; simpl in Hi; try discriminate;
      injection Hi as <-; reflexivity.
  - repeat constructor; discriminate.
  - vm_compute. discriminate.
  - simpl. lia.
Defined.

(** With section 4.2's predicate in place of the validator, C1 fails: the
    page holds one complete record, [dune], and [getBooks] with limit 1
    returns the record before it, whose page count is -1. *)
Lemma first_complete_record_is_not_returned :
  Baseline.complete Baseline.erratumPage = [mkBook Baseline.dune] /\
  Baseline.getBooks 1 (samePage Baseline.erratumPage) "dune" 1 []
  = Some ([mkBook Baseline.erratum], None, [duneURL]).
Proof. split; vm_compute; reflexivity. Qed.

Lemma getBooks_terminates_iff_witness :
  exists fuel r,
    Baseline.getBooks fuel (replay [Items Baseline.mixedPage]) "dune" 5 []
    = Some r.
Proof.
  apply (proj2 (getBooks_terminates_iff Baseline.hasEmptyInformation
                  (replay [Items Baseline.mixedPage]) "dune" 5 [])).
  exists [Baseline.mixedPage]. split; [|split].
  - intros [|i] items Hi; simpl in Hi; try discriminate.
    injection Hi as <-. reflexivity.
  - repeat constructor; discriminate.
  - right. reflexivity.
Defined.

(** An upstream that answers every request with the same non-empty page of
    incomplete records: [getBooks] returns for no amount of fuel. *)
Lemma same_incomplete_page_never_returns :
  ~ exists fuel r,
      Baseline.getBooks fuel (samePage Baseline.untitledPage) "dune" 1 []
      = Some r.
Proof.
  intros (fuel & r & Hrun).
  unfold Baseline.getBooks in Hrun. rewrite getBooks_positive in Hrun
    by reflexivity.
  rewrite (fetchLoop_starves _ _ _ _ Baseline.untitledPage) in Hrun.
  - discriminate.
  - reflexivity.
  - discriminate.
  - reflexivity.
  - reflexivity.
Qed.

Lemma effective_limit_is_min_witness :
  clampLimit 80 = maxLimit /\
  exists books calls,
    Baseline.getBooks 10 (samePage Baseline.fivePage) "dune" 80 []
    = Some (books, None,
            [] ++ replicate calls (volumesURL (QueryEscape "dune"))) /\
    Z.of_nat (length books) = 50 /\
    Z.of_nat (length books) <= maxLimit.
Proof.
  destruct (effective_limit_is_min Baseline.hasEmptyInformation
              (samePage Baseline.fivePage) 10 "dune" 80
              (params "dune" "80") [])
    as (_ & _ & Hclamp & _ & Hlen & _ & _ & Hcap).
  split; [apply Hclamp; reflexivity|].
  destruct (Hcap (replicate 10 Baseline.fivePage))
    as (books & calls & Hrun & _ & _ & Hfifty).
  - reflexivity.
  - intros i items Hi. apply lookup_replicate in Hi as [-> _]. reflexivity.
  - apply Forall_replicate. discriminate.
  - vm_compute. discriminate.
  - rewrite length_replicate. lia.
  - exists books, calls. split; [exact Hrun|].
    split; [apply Hfifty; reflexivity | apply (Hlen books _ Hrun)].
Defined.

Lemma getBooks_empty_page_returns_buffer_witness :
  Baseline.getBooks 2 (replay [Items Baseline.mixedPage]) "dune" 5 []
  = Some (map mkBook [Baseline.dune; Baseline.emma], None, [duneURL; duneURL]).
Proof.
  apply (proj1 (getBooks_empty_page_returns_buffer Baseline.hasEmptyInformation
                  (replay [Items Baseline.mixedPage]) "dune" 5 []
                  [Baseline.mixedPage] 0
                  ltac:(intros [|i] items Hi; simpl in Hi; try discriminate;
                        injection Hi as <-; reflexivity)
                  ltac:(repeat constructor; discriminate)
                  ltac:(vm_compute; reflexivity)
                  ltac:(reflexivity))).
Defined.

Lemma getBooks_failure_aborts_witness :
  Baseline.getBooks 2
    (replay [Items Baseline.mixedPage; GetError "connection refused"])
    "dune" 5 []
  = Some ([], Some "making GET request: connection refused",
          [duneURL; duneURL]).
Proof.
  apply (proj1 (getBooks_failure_aborts Baseline.hasEmptyInformation
                  (replay [Items Baseline.mixedPage;
                           GetError "connection refused"]) "dune" 5 []
                  [Baseline.mixedPage] 0 "connection refused"
                  ltac:(intros [|i] items Hi; simpl in Hi; try discriminate;
                        injection Hi as <-; reflexivity)
                  ltac:(repeat constructor; discriminate)
                  ltac:(vm_compute; reflexivity))).
  reflexivity.
Defined.

Lemma result_set_total_and_accepted_witness :
  Total (mkResponse "dune" 3
           (map mkBook [Baseline.dune; Baseline.emma; Baseline.ulysses]))
  = Z.of_nat (length (map mkBook [Baseline.dune; Baseline.emma;
                                  Baseline.ulysses]))
  /\ Forall (fun b => Baseline.hasEmptyInformation (book_information b) = false)
       (map mkBook [Baseline.dune; Baseline.emma; Baseline.ulysses]).
Proof.
  apply (result_set_total_and_accepted Baseline.hasEmptyInformation
           (samePage Baseline.fivePage) 1 (params "dune" "3") [] 200
           (mkResponse "dune" 3
              (map mkBook [Baseline.dune; Baseline.emma; Baseline.ulysses]))
           [duneURL]).
  vm_compute. reflexivity.
Defined.

(** A 200 response that carries a record which section 4.2 calls
    incomplete: its page count is -1. *)
Lemma result_set_with_incomplete_record :
  Baseline.booksHandler 1 (samePage Baseline.erratumPage) (params "dune" "1") []
  = Some (mkHttp 200 (Json (mkResponse "dune" 1 [mkBook Baseline.erratum])),
          [duneURL])
  /\ Baseline.isComplete Baseline.erratum = false.
Proof. split; vm_compute; reflexivity. Qed.

Lemma invalid_request_is_rejected_witness :
  exists b : Body Baseline.BookInformation,
    StatusBadRequest = 400 /\
    (forall aggregate,
        booksHandlerWith aggregate (params "dune" "-1") []
        = Some (mkHttp StatusBadRequest b, [])) /\
    (forall fuel up,
        Baseline.booksHandler fuel up (params "dune" "-1") []
        = Some (mkHttp StatusBadRequest b, [])).
Proof.
  apply (invalid_request_is_rejected Baseline.hasEmptyInformation
           (params "dune" "-1") []).
  do 4 right. exists (-1). split; [vm_compute; reflexivity | lia].
Defined.

Lemma getBooks_negative_limit_witness :
  Baseline.getBooks 0 (samePage Baseline.fivePage) "dune" (-3) []
  = Some ([], None, []).
Proof.
  apply (proj1 (getBooks_negative_limit Baseline.hasEmptyInformation
                  (samePage Baseline.fivePage) 0 "dune" (-3) []
                  ltac:(lia))).
Defined.

Lemma getBooks_limit_zero_witness :
  Baseline.getBooks 0 (samePage Baseline.fivePage) "dune" 0 []
  = Some ([], None, []) /\
  Baseline.booksHandler 0 (samePage Baseline.fivePage) (params "dune" "0") []
  = Some (mkHttp StatusOK (Json (mkResponse "dune" 0 [])), []).
Proof.
  destruct (getBooks_limit_zero Baseline.hasEmptyInformation
              (samePage Baseline.fivePage) 0 "dune" []) as [Hagg Hhandler].
  split; [exact Hagg | apply Hhandler; discriminate].
Defined.

(** * Further properties of the code *)

Section AggregatorRuns.

Context {BookInformation : Type}.
Variable hasEmptyInformation : BookInformation -> bool.

Abbreviation Book := (Book BookInformation).
Abbreviation Item := (Item BookInformation).
Abbreviation Upstream := (Upstream BookInformation).
Abbreviation accepted := (accepted hasEmptyInformation).
Abbreviation scanItems := (scanItems hasEmptyInformation).
Abbreviation fetchLoop := (fetchLoop hasEmptyInformation).
Abbreviation getBooks := (getBooks hasEmptyInformation).

(** ** The scan of one page *)

(** X1.  Starting from a buffer within the limit, the scan of a page keeps
    the buffer as it is and appends to it the first accepted candidates of
    the page, in page order, as many as fit below the limit: all of them
    when they fit, and never beyond the limit. *)
Theorem scanItems_appends_while_room limit (items : list Item) books :
  Z.of_nat (length books) <= limit ->
  exists added,
    scanItems limit items books = books ++ added /\
    added = take (Z.to_nat (limit - Z.of_nat (length books))) (accepted items)
    /\ Z.of_nat (length (scanItems limit items books)) <= limit
    /\ (Z.of_nat (length books + length (accepted items)) <= limit ->
        added = accepted items).
Proof.
  intros Hfit.
  exists (take (room limit books) (accepted items)).
  rewrite scanItems_spec. split; [reflexivity|]. split; [reflexivity|].
  split.
  - rewrite length_app, length_take. unfold room. lia.
  - intros Hall. apply take_ge. unfold room. lia.
Qed.

(** ** Every outcome of the loop *)

(** The requests of a run all ask for the same URL; none is made exactly
    when the buffer has already reached the limit. *)
Lemma fetchLoop_requests (up : Upstream) url limit fuel :
  forall books log books' err log',
    fetchLoop fuel up url limit books log = Some (books', err, log') ->
    exists calls,
      log' = log ++ replicate calls url /\ (calls <= fuel)%nat /\
      (calls = 0%nat <-> limit <= Z.of_nat (length books)).
Proof.
  induction fuel as [|fuel IH]; intros books log books' err log' Hrun.
  - destruct (Z.lt_ge_cases (Z.of_nat (length books)) limit) as [Hroom|Hfull].
    + now rewrite fetchLoop_out_of_fuel in Hrun.
    + rewrite fetchLoop_done in Hrun by lia. injection Hrun as <- <- <-.
      exists 0%nat. simpl. rewrite app_nil_r. split; [reflexivity|].
      split; [lia|]. split; intros; [lia | reflexivity].
  - destruct (Z.lt_ge_cases (Z.of_nat (length books)) limit) as [Hroom|Hfull].
    + destruct (up (length log) url) as [e|e|items] eqn:Hup.
      * rewrite (fetchLoop_get_error _ _ _ _ _ _ _ e) in Hrun by auto.
        injection Hrun as <- <- <-. exists 1%nat.
        split; [reflexivity|]. split; [lia|]. split; intros; lia.
      * rewrite (fetchLoop_decode_error _ _ _ _ _ _ _ e) in Hrun by auto.
        injection Hrun as <- <- <-. exists 1%nat.
        split; [reflexivity|]. split; [lia|]. split; intros; lia.
      * destruct items as [|item items].
        { rewrite fetchLoop_empty_page in Hrun by auto.
          injection Hrun as <- <- <-. exists 1%nat.
          split; [reflexivity|]. split; [lia|]. split; intros; lia. }
        rewrite (fetchLoop_page _ _ _ _ _ _ _ (item :: items)) in Hrun
          by (auto; congruence).
        apply IH in Hrun as (calls & -> & Hcalls & _).
        exists (S calls). rewrite log_replicate.
        split; [reflexivity|]. split; [lia|]. split; intros; lia.
    + rewrite fetchLoop_done in Hrun by lia. injection Hrun as <- <- <-.
      exists 0%nat. simpl. rewrite app_nil_r. split; [reflexivity|].
      split; [lia|]. split; intros; [lia | reflexivity].
Qed.

(** A run that ends in an error returns no book, and the error is that of
    the last request made. *)
Lemma fetchLoop_error_inv (up : Upstream) url limit fuel :
  forall books log books' msg log',
    fetchLoop fuel up url limit books log = Some (books', Some msg, log') ->
    books' = [] /\
    exists calls,
      log' = log ++ replicate (S calls) url /\
      ((exists cause,
           up (length log + calls)%nat url = GetError cause /\
           msg = "making GET request: " +:+ cause) \/
       up (length log + calls)%nat url = DecodeError msg).
Proof.
  induction fuel as [|fuel IH]; intros books log books' msg log' Hrun.
  - destruct (Z.lt_ge_cases (Z.of_nat (length books)) limit) as [Hroom|Hfull].
    + now rewrite fetchLoop_out_of_fuel in Hrun.
    + rewrite fetchLoop_done in Hrun by lia. discriminate.
  - destruct (Z.lt_ge_cases (Z.of_nat (length books)) limit) as [Hroom|Hfull].
    + destruct (up (length log) url) as [e|e|items] eqn:Hup.
      * rewrite (fetchLoop_get_error _ _ _ _ _ _ _ e) in Hrun by auto.
        injection Hrun as <- <- <-. split; [reflexivity|]. exists 0%nat.
        rewrite Nat.add_0_r. split; [reflexivity|]. left. eauto.
      * rewrite (fetchLoop_decode_error _ _ _ _ _ _ _ e) in Hrun by auto.
        injection Hrun as <- <- <-. split; [reflexivity|]. exists 0%nat.
        rewrite Nat.add_0_r. split; [reflexivity|]. now right.
      * destruct items as [|item items].
        { rewrite fetchLoop_empty_page in Hrun by auto. discriminate. }
        rewrite (fetchLoop_page _ _ _ _ _ _ _ (item :: items)) in Hrun
          by (auto; congruence).
        apply IH in Hrun as (-> & calls & -> & Hlast).
        split; [reflexivity|]. exists (S calls).
        rewrite log_replicate. split; [reflexivity|].
        rewrite log_step in Hlast.
        now replace (length log + S calls)%nat
          with (S (length log) + calls)%nat by lia.
    + rewrite fetchLoop_done in Hrun by lia. discriminate.
Qed.

(** A run that ends without error returns the buffer extended by the first
    accepted candidates of the non-empty pages it was served, and it ended
    either because these reached the limit or on an empty page. *)
Lemma fetchLoop_success_inv (up : Upstream) url limit fuel :
  forall books log books' log',
    fetchLoop fuel up url limit books log = Some (books', None, log') ->
    exists pages,
      serves up url (length log) pages /\ nonempty_pages pages /\
      books' = books ++ take (room limit books) (accepted (concat pages)) /\
      ((limit <= Z.of_nat (length (books ++ accepted (concat pages))) /\
        log' = log ++ replicate (length pages) url) \/
       (Z.of_nat (length (books ++ accepted (concat pages))) < limit /\
        up (length log + length pages)%nat url = Items [] /\
        log' = log ++ replicate (S (length pages)) url)).
Proof.
  induction fuel as [|fuel IH]; intros books log books' log' Hrun.
  - destruct (Z.lt_ge_cases (Z.of_nat (length books)) limit) as [Hroom|Hfull].
    + now rewrite fetchLoop_out_of_fuel in Hrun.
    + rewrite fetchLoop_done in Hrun by lia. injection Hrun as <- <-.
      exists []. split; [apply serves_nil|]. split; [constructor|].
      simpl. rewrite accepted_nil, take_nil, !app_nil_r.
      split; [reflexivity|]. left. split; [lia | reflexivity].
  - destruct (Z.lt_ge_cases (Z.of_nat (length books)) limit) as [Hroom|Hfull].
    + destruct (up (length log) url) as [e|e|items] eqn:Hup.
      * rewrite (fetchLoop_get_error _ _ _ _ _ _ _ e) in Hrun by auto.
        discriminate.
      * rewrite (fetchLoop_decode_error _ _ _ _ _ _ _ e) in Hrun by auto.
        discriminate.
      * destruct items as [|item items].
        { rewrite fetchLoop_empty_page in Hrun by auto.
          injection Hrun as <- <-.
          exists []. split; [apply serves_nil|]. split; [constructor|].
          simpl. rewrite accepted_nil, take_nil, !app_nil_r.
          split; [reflexivity|]. right. rewrite Nat.add_0_r. auto. }
        rewrite (fetchLoop_page _ _ _ _ _ _ _ (item :: items)) in Hrun
          by (auto; congruence).
        apply IH in Hrun as (pages & Hs & Hne & -> & Hend).
        rewrite log_step in Hs, Hend.
        exists ((item :: items) :: pages).
        split; [now apply serves_cons|]. split; [now constructor|].
        rewrite concat_cons, accepted_app. rewrite scanItems_spec in *.
        split.
        -- rewrite take_app, <- app_assoc. do 2 f_equal. f_equal.
           unfold room. rewrite length_app, length_take. lia.
        -- rewrite !length_app in *. rewrite length_take in Hend.
           unfold room in Hend. simpl length.
           destruct Hend as [[Hge ->]|(Hlt & Hempty & ->)].
           ++ left. split; [lia|]. now rewrite log_replicate.
           ++ right. split; [lia|]. split.
              ** now replace (length log + S (length pages))%nat
                   with (S (length log) + length pages)%nat by lia.
              ** now rewrite log_replicate.
    + rewrite fetchLoop_done in Hrun by lia. injection Hrun as <- <-.
      exists []. split; [apply serves_nil|]. split; [constructor|].
      simpl. rewrite accepted_nil, take_nil, !app_nil_r.
      split; [reflexivity|]. left. split; [lia | reflexivity].
Qed.

(** ** Every outcome of [getBooks] *)

Lemma getBooks_error_nil fuel (up : Upstream) query limit log books msg log' :
  getBooks fuel up query limit log = Some (books, Some msg, log') ->
  books = [].
Proof.
  rewrite getBooks_eq. destruct (clampLimit limit =? 0); [discriminate|].
  intros Hrun. now apply fetchLoop_error_inv in Hrun as [-> _].
Qed.

(** X2.  Whenever [getBooks] returns an error, the book list returned with
    it is empty, at least one request was made, and the error is that of
    the last request: the cause of the failed GET behind the prefix
    [making GET request: ], or the decoding error itself. *)
Theorem getBooks_error_is_last_request
    fuel (up : Upstream) query limit log books msg log' :
  getBooks fuel up query limit log = Some (books, Some msg, log') ->
  books = [] /\
  exists calls,
    log' = log ++ replicate (S calls) (volumesURL (QueryEscape query)) /\
    ((exists cause,
         up (length log + calls)%nat (volumesURL (QueryEscape query))
         = GetError cause /\
         msg = "making GET request: " +:+ cause) \/
     up (length log + calls)%nat (volumesURL (QueryEscape query))
     = DecodeError msg).
Proof.
  rewrite getBooks_eq. destruct (clampLimit limit =? 0); [discriminate|].
  intros Hrun. now apply fetchLoop_error_inv in Hrun.
Qed.

(** X3.  Whenever [getBooks] returns without error, its result is a prefix
    of the accepted candidates of the non-empty pages it was served, taken
    in arrival order: the first [L] of them (with [L] the clamped limit)
    when it stopped because they reached [L], after one request per page;
    all of them when it stopped on an empty page, which was then the last
    request. *)
Theorem getBooks_result_is_prefix
    fuel (up : Upstream) query limit log books log' :
  getBooks fuel up query limit log = Some (books, None, log') ->
  exists pages,
    serves up (volumesURL (QueryEscape query)) (length log) pages /\
    nonempty_pages pages /\
    books = take (Z.to_nat (clampLimit limit)) (accepted (concat pages)) /\
    ((clampLimit limit <= Z.of_nat (length (accepted (concat pages))) /\
      log' = log ++ replicate (length pages) (volumesURL (QueryEscape query)))
     \/
     (Z.of_nat (length (accepted (concat pages))) < clampLimit limit /\
      books = accepted (concat pages) /\
      up (length log + length pages)%nat (volumesURL (QueryEscape query))
      = Items [] /\
      log' = log ++ replicate (S (length pages))
                      (volumesURL (QueryEscape query)))).
Proof.
  rewrite getBooks_eq. destruct (Z.eqb_spec (clampLimit limit) 0) as [E|E].
  - intros Hrun. injection Hrun as <- <-.
    exists []. split; [apply serves_nil|]. split; [constructor|].
    simpl. rewrite accepted_nil, take_nil, app_nil_r.
    split; [reflexivity|]. left. split; [lia | reflexivity].
  - intros Hrun.
    apply fetchLoop_success_inv in Hrun as (pages & Hs & Hne & -> & Hend).
    exists pages. split; [assumption|]. split; [assumption|].
    unfold room. simpl. rewrite Z.sub_0_r.
    split; [reflexivity|].
    destruct Hend as [[Hge ->]|(Hlt & Hempty & ->)].
    + left. simpl in Hge. auto.
    + right. simpl in Hlt. split; [assumption|].
      split; [apply take_ge; lia | auto].
Qed.

(** X4.  Every request of a run of [getBooks] asks for the same URL, the
    volumes endpoint with the escaped query and no paging parameter; there
    are at most as many requests as loop iterations, and there is none
    exactly when the clamped limit is not positive. *)
Theorem getBooks_requests_one_url
    fuel (up : Upstream) query limit log books err log' :
  getBooks fuel up query limit log = Some (books, err, log') ->
  exists calls,
    log' = log ++ replicate calls (volumesURL (QueryEscape query)) /\
    (calls <= fuel)%nat /\
    (calls = 0%nat <-> clampLimit limit <= 0).
Proof.
  rewrite getBooks_eq. destruct (Z.eqb_spec (clampLimit limit) 0) as [E|E].
  - intros Hrun. injection Hrun as <- <- <-. exists 0%nat.
    simpl. rewrite app_nil_r. split; [reflexivity|]. split; [lia|].
    split; intros; [lia | reflexivity].
  - intros Hrun. apply fetchLoop_requests in Hrun as (calls & -> & Hle & Hz).
    exists calls. split; [reflexivity|]. split; [assumption|].
    simpl in Hz. exact Hz.
Qed.

(** ** Progress *)

Lemma fetchLoop_progress (up : Upstream) url limit :
  (forall n, exists items, up n url = Items items /\ accepted items <> []) ->
  forall fuel books log,
    (room limit books <= fuel)%nat ->
    exists books' calls,
      fetchLoop fuel up url limit books log
      = Some (books', None, log ++ replicate calls url) /\
      (calls <= room limit books)%nat /\
      (Z.of_nat (length books) <= limit -> Z.of_nat (length books') = limit).
Proof.
  intros Hup. induction fuel as [|fuel IH]; intros books log Hfuel.
  - exists books, 0%nat. unfold room in Hfuel.
    rewrite fetchLoop_done by lia. simpl. rewrite app_nil_r.
    split; [reflexivity|]. split; [lia|]. lia.
  - destruct (Z.lt_ge_cases (Z.of_nat (length books)) limit) as [Hroom|Hfull].
    + destruct (Hup (length log)) as (items & Hitems & Hacc).
      assert (Hne : items <> []) by (intros ->; now apply Hacc).
      rewrite (fetchLoop_page _ _ _ _ _ _ _ items) by auto.
      assert (Hgrow : (room limit (scanItems limit items books)
                       < room limit books)%nat).
      { rewrite scanItems_spec. unfold room.
        rewrite length_app, length_take.
        destruct (accepted items); [congruence|]. simpl length. lia. }
      assert (Hwithin : Z.of_nat (length (scanItems limit items books))
                        <= limit).
      { rewrite scanItems_spec, length_app, length_take. unfold room. lia. }
      destruct (IH (scanItems limit items books) (log ++ [url]))
        as (books' & calls & Hrun & Hcalls & Hlen); [lia|].
      exists books', (S calls). rewrite Hrun, log_replicate.
      split; [reflexivity|]. split; [lia|]. auto.
    + exists books, 0%nat. rewrite fetchLoop_done by lia.
      simpl. rewrite app_nil_r.
      split; [reflexivity|]. split; [lia|]. lia.
Qed.

(** X5.  When the upstream answers every request with a page that holds at
    least one accepted candidate, [getBooks] with a positive clamped limit
    [L] returns within [L] iterations: without error, with exactly [L]
    books, after at most [L] requests. *)
Theorem getBooks_progress_with_useful_pages
    (up : Upstream) query limit log fuel :
  (forall n, exists items,
      up n (volumesURL (QueryEscape query)) = Items items /\
      accepted items <> []) ->
  0 < clampLimit limit ->
  (Z.to_nat (clampLimit limit) <= fuel)%nat ->
  exists books calls,
    getBooks fuel up query limit log
    = Some (books, None,
            log ++ replicate calls (volumesURL (QueryEscape query))) /\
    Z.of_nat (length books) = clampLimit limit /\
    (1 <= calls)%nat /\ Z.of_nat calls <= clampLimit limit.
Proof.
  intros Hup Hpos Hfuel.
  destruct (fetchLoop_progress up _ (clampLimit limit) Hup fuel [] log)
    as (books & calls & Hrun & Hcalls & Hlen).
  { unfold room. simpl. now rewrite Z.sub_0_r. }
  exists books, calls. rewrite getBooks_positive by assumption.
  split; [exact Hrun|]. split; [apply Hlen; simpl; lia|].
  unfold room in Hcalls. simpl in Hcalls. split; [|lia].
  apply fetchLoop_requests in Hrun as (calls' & Heq & _ & Hz).
  apply app_inv_head in Heq.
  assert (calls' = calls).
  { apply (f_equal length) in Heq. now rewrite !length_replicate in Heq. }
  subst calls'. simpl in Hz. destruct calls; [|lia].
  assert (clampLimit limit <= 0) by now apply Hz. lia.
Qed.

(** ** The limit only truncates *)

Lemma fetchLoop_extends (up : Upstream) url limit fuel books log books' log' :
  fetchLoop fuel up url limit books log = Some (books', None, log') ->
  exists more, books' = books ++ more.
Proof.
  intros Hrun.
  apply fetchLoop_success_inv in Hrun as (pages & _ & _ & -> & _). eauto.
Qed.

Lemma fetchLoop_limit_mono (up : Upstream) url limit1 limit2 :
  limit1 <= limit2 ->
  forall fuel1 fuel2 books1 books2 log result1 result2 log1 log2,
    books1 = take (Z.to_nat limit1) books2 ->
    (Z.of_nat (length books1) < limit1 -> books2 = books1) ->
    fetchLoop fuel1 up url limit1 books1 log = Some (result1, None, log1) ->
    fetchLoop fuel2 up url limit2 books2 log = Some (result2, None, log2) ->
    result1 = take (Z.to_nat limit1) result2.
Proof.
  intros Hle.
  assert (Hdone : forall fuel1 fuel2 books1 books2 log result1 result2
                         log1 log2,
             books1 = take (Z.to_nat limit1) books2 ->
             limit1 <= Z.of_nat (length books1) ->
             fetchLoop fuel1 up url limit1 books1 log
             = Some (result1, None, log1) ->
             fetchLoop fuel2 up url limit2 books2 log
             = Some (result2, None, log2) ->
             result1 = take (Z.to_nat limit1) result2).
  { intros fuel1 fuel2 books1 books2 log result1 result2 log1 log2
           Hpre Hfull Hrun1 Hrun2.
    rewrite fetchLoop_done in Hrun1 by assumption.
    injection Hrun1 as <- <-.
    apply fetchLoop_extends in Hrun2 as [more ->].
    rewrite take_app_le; [assumption|].
    rewrite Hpre, length_take in Hfull. lia. }
  induction fuel1 as [|fuel1 IH];
    intros fuel2 books1 books2 log result1 result2 log1 log2
           Hpre Hsame Hrun1 Hrun2.
  - destruct (Z.lt_ge_cases (Z.of_nat (length books1)) limit1)
      as [Hroom|Hfull].
    + now rewrite fetchLoop_out_of_fuel in Hrun1.
    + eapply Hdone; eauto; lia.
  - destruct (Z.lt_ge_cases (Z.of_nat (length books1)) limit1)
      as [Hroom|Hfull]; [|eapply Hdone; eauto; lia].
    specialize (Hsame Hroom). subst books2.
    destruct fuel2 as [|fuel2];
      [rewrite fetchLoop_out_of_fuel in Hrun2 by lia; discriminate|].
    destruct (up (length log) url) as [e|e|items] eqn:Hup.
    + rewrite (fetchLoop_get_error _ _ _ _ _ _ _ e) in Hrun1 by auto.
      discriminate.
    + rewrite (fetchLoop_decode_error _ _ _ _ _ _ _ e) in Hrun1 by auto.
      discriminate.
    + destruct items as [|item items].
      { rewrite fetchLoop_empty_page in Hrun1 by auto.
        rewrite fetchLoop_empty_page in Hrun2 by (auto; lia).
        injection Hrun1 as <- <-. injection Hrun2 as <- <-.
        symmetry. apply take_ge. lia. }
      rewrite (fetchLoop_page _ _ _ _ _ _ _ (item :: items)) in Hrun1
        by (auto; congruence).
      rewrite (fetchLoop_page _ _ _ _ _ _ _ (item :: items)) in Hrun2
        by (auto; try lia; congruence).
      eapply (IH fuel2 _ _ _ _ _ _ _ _ _ Hrun1 Hrun2).
      Unshelve.
      * rewrite !scanItems_spec. unfold room.
        rewrite take_app, take_take.
        rewrite (take_ge books1) by lia.
        do 2 f_equal. lia.
      * rewrite !scanItems_spec. unfold room.
        rewrite length_app, length_take. intros Hstill.
        f_equal. rewrite !take_ge by lia. reflexivity.
Qed.

(** X6.  Against the same upstream and request log, a smaller limit only
    truncates: when [getBooks] returns without error for [limit1] and for
    [limit2], with [limit1 <= limit2], the result for [limit1] is the list
    of the first [limit1] books of the result for [limit2]. *)
Theorem getBooks_smaller_limit_truncates
    (up : Upstream) query limit1 limit2 log
    fuel1 fuel2 books1 books2 log1 log2 :
  limit1 <= limit2 ->
  getBooks fuel1 up query limit1 log = Some (books1, None, log1) ->
  getBooks fuel2 up query limit2 log = Some (books2, None, log2) ->
  books1 = take (Z.to_nat limit1) books2.
Proof.
  intros Hle Hrun1 Hrun2.
  assert (Hclamp : clampLimit limit1 <= clampLimit limit2)
    by (rewrite !clampLimit_min; lia).
  assert (Hlen2 : Z.of_nat (length books2) <= Z.max 0 (clampLimit limit2))
    by now apply getBooks_sound in Hrun2 as [_ Hlen].
  assert (Hcut : take (Z.to_nat (clampLimit limit1)) books2
                 = take (Z.to_nat limit1) books2).
  { rewrite clampLimit_min in *.
    destruct (Z.le_gt_cases limit1 maxLimit) as [Hsmall|Hbig].
    - now replace (Z.min limit1 maxLimit) with limit1 by lia.
    - rewrite !take_ge; [reflexivity | lia | lia]. }
  rewrite <- Hcut. clear Hcut.
  rewrite getBooks_eq in Hrun1, Hrun2.
  destruct (Z.eqb_spec (clampLimit limit1) 0) as [E1|E1].
  - injection Hrun1 as <- <-. rewrite E1. reflexivity.
  - destruct (Z.eqb_spec (clampLimit limit2) 0) as [E2|E2].
    + injection Hrun2 as <- <-. rewrite take_nil.
      rewrite fetchLoop_done in Hrun1 by (simpl; lia).
      now injection Hrun1 as <- <-.
    + apply (fetchLoop_limit_mono up (volumesURL (QueryEscape query))
               (clampLimit limit1) (clampLimit limit2) Hclamp
               fuel1 fuel2 [] [] log books1 books2 log1 log2);
        [now rewrite take_nil | reflexivity | assumption | assumption].
Qed.

(** ** The handler's answers *)

(** X7.  A 200 response echoes the [query] parameter as it was received
    (not empty, not escaped), and its total, the length of its book list,
    lies between 0 and the [limit] parameter as parsed; the books are the
    result of [getBooks] for that query and that limit. *)
Theorem ok_response_echoes_query_within_limit
    fuel (up : Upstream) form log st r log' :
  booksHandler hasEmptyInformation fuel up form log
  = Some (mkHttp st (Json r), log') ->
  st = 200 /\
  Query r = Get form "query" /\ Query r <> "" /\
  exists l,
    Atoi (Get form "limit") = inl l /\
    0 <= Total r <= l /\
    getBooks fuel up (Get form "query") l log = Some (Books r, None, log').
Proof.
  unfold booksHandler, booksHandlerWith.
  destruct (String.eqb_spec (Get form "query") "") as [Hq|Hq]; [discriminate|].
  destruct (String.eqb (Get form "limit") ""); [discriminate|].
  destruct (Atoi (Get form "limit")) as [l|e]; [|discriminate].
  destruct (Z.ltb_spec l 0); [discriminate|].
  destruct (getBooks fuel up (Get form "query") l log)
    as [[[books [e|]] lg]|] eqn:Hrun; try discriminate.
  intros H'. injection H' as <- <- <-. simpl.
  split; [reflexivity|]. split; [reflexivity|]. split; [assumption|].
  exists l. split; [reflexivity|]. split; [|exact Hrun].
  apply getBooks_sound in Hrun as [_ Hlen].
  rewrite clampLimit_min in Hlen. lia.
Qed.

(** X8.  Whatever the handler answers, the status is 200, 400 or 500, and
    it is 400 only for an invalid request: an empty or missing [query], an
    empty or missing [limit], a [limit] that [Atoi] rejects, or a negative
    one. *)
Theorem bad_request_only_when_invalid
    fuel (up : Upstream) form log resp log' :
  booksHandler hasEmptyInformation fuel up form log = Some (resp, log') ->
  (status resp = 400 <->
   Get form "query" = "" \/ Get form "limit" = "" \/
   (exists err, Atoi (Get form "limit") = inr err) \/
   (exists l, Atoi (Get form "limit") = inl l /\ l < 0)) /\
  (status resp = 200 \/ status resp = 400 \/ status resp = 500).
Proof.
  unfold booksHandler, booksHandlerWith.
  destruct (String.eqb_spec (Get form "query") "") as [Hq|Hq].
  { intros H'. injection H' as <- <-. simpl. split; [|auto].
    split; [auto | reflexivity]. }
  destruct (String.eqb_spec (Get form "limit") "") as [Hl|Hl].
  { intros H'. injection H' as <- <-. simpl. split; [|auto].
    split; [auto | reflexivity]. }
  destruct (Atoi (Get form "limit")) as [l|e] eqn:Hatoi.
  2:{ intros H'. injection H' as <- <-. simpl. split; [|auto].
      split; [eauto | reflexivity]. }
  destruct (Z.ltb_spec l 0) as [Hneg|Hpos].
  { intros H'. injection H' as <- <-. simpl. split; [|auto].
    split; [eauto 6 | reflexivity]. }
  assert (Hvalid : ~ (Get form "query" = "" \/ Get form "limit" = "" \/
                      (exists err, @inl Z NumError l = inr err) \/
                      (exists l0, @inl Z NumError l = inl l0 /\ l0 < 0))).
  { intros [H|[H|[[err H]|(l0 & H & Hneg)]]]; try contradiction;
      try discriminate. injection H as <-. lia. }
  destruct (getBooks fuel up (Get form "query") l log)
    as [[[books [e|]] lg]|] eqn:Hrun; try discriminate.
  - intros H'. injection H' as <- <-. simpl. split; [|auto].
    split; [discriminate | intros H; now apply Hvalid in H].
  - intros H'. injection H' as <- <-. simpl. split; [|auto].
    split; [discriminate | intros H; now apply Hvalid in H].
Qed.

(** X9.  The handler answers 500 exactly when the request passed the
    validation and [getBooks] returned an error.  Whenever a request with a
    non-empty query and a limit that parses to a non-negative integer makes
    [getBooks] return an error, the answer is 500 with the text
    [getting books: ] followed by that error, and the log is that of
    [getBooks]; and a 500 answer is given in no other case and carries
    nothing of a result set. *)
Theorem server_error_only_when_getBooks_fails
    fuel (up : Upstream) form log :
  (forall l books msg lg,
      Get form "query" <> "" ->
      Atoi (Get form "limit") = inl l ->
      0 <= l ->
      getBooks fuel up (Get form "query") l log = Some (books, Some msg, lg) ->
      booksHandler hasEmptyInformation fuel up form log
      = Some (mkHttp 500 (Text ("getting books: " +:+ msg)), lg)) /\
  (forall resp log',
      booksHandler hasEmptyInformation fuel up form log = Some (resp, log') ->
      (status resp = 500 <->
       Get form "query" <> "" /\
       exists l books msg lg,
         Atoi (Get form "limit") = inl l /\ 0 <= l /\
         getBooks fuel up (Get form "query") l log
         = Some (books, Some msg, lg)) /\
      (status resp = 500 <->
       exists l msg,
         Atoi (Get form "limit") = inl l /\
         getBooks fuel up (Get form "query") l log
         = Some ([], Some msg, log') /\
         body resp = Text ("getting books: " +:+ msg))).
Proof.
  split.
  - intros l books msg lg Hq Hatoi Hpos Hrun.
    unfold booksHandler, booksHandlerWith.
    apply String.eqb_neq in Hq. rewrite Hq.
    destruct (String.eqb_spec (Get form "limit") "") as [Hl|Hl].
    { rewrite Hl in Hatoi. discriminate. }
    rewrite Hatoi. destruct (Z.ltb_spec l 0); [lia|].
    rewrite Hrun. reflexivity.
  - intros resp log'. unfold booksHandler, booksHandlerWith.
    destruct (String.eqb_spec (Get form "query") "") as [Hq|Hq].
    { intros H'. injection H' as <- <-. simpl. split.
      - split; [discriminate | intros [Hne _]; contradiction].
      - split; [discriminate | intros (l & msg & _ & _ & Hb); discriminate]. }
    destruct (String.eqb_spec (Get form "limit") "") as [Hl|Hl].
    { intros H'. injection H' as <- <-. simpl. split.
      - split; [discriminate|].
        intros (_ & l & books & msg & lg & Hatoi & _).
        rewrite Hl in Hatoi. discriminate.
      - split; [discriminate | intros (l & msg & _ & _ & Hb); discriminate]. }
    destruct (Atoi (Get form "limit")) as [l|e] eqn:Hatoi.
    2:{ intros H'. injection H' as <- <-. simpl. split.
        - split; [discriminate|].
          intros (_ & l & books & msg & lg & Hinl & _). discriminate.
        - split; [discriminate|
                  intros (l & msg & _ & _ & Hb); discriminate]. }
    destruct (Z.ltb_spec l 0) as [Hneg|Hpos].
    { intros H'. injection H' as <- <-. simpl. split.
      - split; [discriminate|].
        intros (_ & l0 & books & msg & lg & Hinl & Hpos & _).
        injection Hinl as <-. lia.
      - split; [discriminate|
                intros (l0 & msg & _ & _ & Hb); discriminate]. }
    destruct (getBooks fuel up (Get form "query") l log)
      as [[[books [e|]] lg]|] eqn:Hrun; try discriminate.
    + intros H'. injection H' as <- <-. simpl.
      apply getBooks_error_nil in Hrun as Hnil. subst books. split.
      * split; [|reflexivity]. intros _. split; [assumption|].
        exists l, [], e, lg. auto.
      * split; [|reflexivity]. intros _. exists l, e. auto.
    + intros H'. injection H' as <- <-. simpl. split.
      * split; [discriminate|].
        intros (_ & l0 & books0 & msg & lg0 & Hinl & _ & Hrun0).
        injection Hinl as <-. congruence.
      * split; [discriminate|
                intros (l0 & msg & _ & _ & Hb); discriminate].
Qed.

End AggregatorRuns.

(** ** The two variants side by side *)

Lemma extended_validator_adds_categories (r : Extended.BookInformation) :
  Extended.hasEmptyInformation r
  = Baseline.hasEmptyInformation (forgetCategories r)
    || (length (Extended.Categories r) =? 0)%nat.
Proof. reflexivity. Qed.

(** X10.  On every page, the extended variant accepts exactly those
    candidates that the baseline variant accepts and that carry at least
    one category, in the same order: the accepted books of the extended
    variant, without their categories, are the accepted books of the
    baseline variant on the page restricted to the candidates with a
    category. *)
Theorem extended_accepts_baseline_with_categories
    (items : list (Item Extended.BookInformation)) :
  map (fun b => mkBook (forgetCategories (book_information b)))
      (accepted Extended.hasEmptyInformation items)
  = accepted Baseline.hasEmptyInformation
      (map (fun item => mkItem (forgetCategories (volumeInfo item)))
           (filter (fun item => Extended.Categories (volumeInfo item) <> [])
                   items)).
Proof.
  induction items as [|item items IH]; [reflexivity|].
  destruct (Baseline.hasEmptyInformation (forgetCategories (volumeInfo item)))
    eqn:Hbase;
    destruct (Extended.Categories (volumeInfo item)) as [|c cs] eqn:Hcat.
  - rewrite accepted_cons_skip
      by (rewrite extended_validator_adds_categories, Hbase; reflexivity).
    rewrite filter_cons_False by (rewrite Hcat; auto). exact IH.
  - rewrite accepted_cons_skip
      by (rewrite extended_validator_adds_categories, Hbase; reflexivity).
    rewrite filter_cons_True by (rewrite Hcat; discriminate).
    simpl map. rewrite accepted_cons_skip by exact Hbase. exact IH.
  - rewrite accepted_cons_skip
      by (rewrite extended_validator_adds_categories, Hbase, Hcat;
          reflexivity).
    rewrite filter_cons_False by (rewrite Hcat; auto). exact IH.
  - rewrite accepted_cons_keep
      by (rewrite extended_validator_adds_categories, Hbase, Hcat;
          reflexivity).
    rewrite filter_cons_True by (rewrite Hcat; discriminate).
    simpl map. rewrite accepted_cons_keep by exact Hbase.
    now rewrite <- IH.
Qed.

(** The handler of the extended variant answers with the same status and
    leaves the same request log as the baseline text run on the same
    aggregator: the two differ in the body of one 400 answer only. *)
Lemma extended_handler_same_status aggregate form log :
  option_map (fun answer => (status (fst answer), snd answer))
             (Extended.booksHandlerWith aggregate form log)
  = option_map (fun answer => (status (fst answer), snd answer))
               (booksHandlerWith aggregate form log).
Proof.
  unfold Extended.booksHandlerWith, booksHandlerWith.
  destruct (String.eqb (Get form "query") ""); [reflexivity|].
  destruct (String.eqb (Get form "limit") ""); [reflexivity|].
  destruct (Atoi (Get form "limit")) as [l|e]; [|reflexivity].
  destruct (l <? 0); [reflexivity|].
  destruct (aggregate (Get form "query") l log) as [[[books [e|]] lg]|];
    reflexivity.
Qed.

(** ** The listening address *)

(** X11.  The extended variant always listens on a colon followed by a
    non-empty port: the value of [PORT] when it is set and not empty, and
    8080 when [PORT] is unset or empty. *)
Theorem listenAddress_has_port (env : gmap string string) (p : string) :
  p <> "" ->
  listenAddress (<["PORT" := p]> env) = ":" +:+ p /\
  listenAddress (<["PORT" := ""]> env) = ":8080" /\
  listenAddress (delete "PORT" env) = ":8080" /\
  exists port, port <> "" /\ listenAddress env = ":" +:+ port.
Proof.
  intros Hp. unfold listenAddress, Getenv.
  rewrite !lookup_insert_eq, lookup_delete_eq. simpl.
  apply String.eqb_neq in Hp. rewrite Hp.
  split; [reflexivity|]. split; [reflexivity|]. split; [reflexivity|].
  destruct (String.eqb_spec (default "" (env !! "PORT")) "") as [E|E].
  - exists "8080". split; [discriminate | reflexivity].
  - exists (default "" (env !! "PORT")). split; [assumption | reflexivity].
Qed.

(** ** The request URL *)

Lemma upperhex_unreserved (c : ascii) :
  shouldEscape (upperhex (nat_of_ascii c / 16)) = false /\
  shouldEscape (upperhex (nat_of_ascii c mod 16)) = false.
Proof.
  destruct c as [[] [] [] [] [] [] [] []]; split; vm_compute; reflexivity.
Qed.

Lemma QueryEscape_alphabet (s : string) (c : ascii) :
  In c (list_ascii_of_string (QueryEscape s)) ->
  shouldEscape c = false \/ c = "+"%char \/ c = "%"%char.
Proof.
  induction s as [|a s IH]; simpl; [contradiction|].
  destruct (Ascii.eqb a " ").
  - simpl. intros [<-|Hin]; auto.
  - destruct (shouldEscape a) eqn:Ha; simpl.
    + destruct (upperhex_unreserved a) as [Hhi Hlo].
      intros [<-|[<-|[<-|Hin]]]; auto.
    + intros [<-|Hin]; auto.
Qed.

(** X12.  The query is escaped before it is put in the request URL: every
    character of the escaped query is an unreserved one (a letter, a digit,
    [-], [_], [.] or [~]), a [+] or a [%]; no space and no [&], [=], [#],
    [?] or [/] of the caller's query reaches the URL. *)
Theorem escaped_query_has_no_separator (query : string) (c : ascii) :
  In c (list_ascii_of_string (QueryEscape query)) ->
  (shouldEscape c = false \/ c = "+"%char \/ c = "%"%char) /\
  c <> " "%char /\ c <> "&"%char /\ c <> "="%char /\ c <> "#"%char /\
  c <> "?"%char /\ c <> "/"%char.
Proof.
  intros Hin. apply QueryEscape_alphabet in Hin as Hc.
  split; [exact Hc|].
  repeat split; intros ->;
    destruct Hc as [Hc|[Hc|Hc]]; vm_compute in Hc; discriminate.
Qed.

(** ** Instances *)

Lemma scanItems_appends_while_room_witness :
  exists added,
    scanItems Baseline.hasEmptyInformation 2 Baseline.mixedPage
      [mkBook Baseline.ulysses]
    = [mkBook Baseline.ulysses] ++ added /\
    added = take (Z.to_nat (2 - Z.of_nat (length [mkBook Baseline.ulysses])))
              (accepted Baseline.hasEmptyInformation Baseline.mixedPage) /\
    Z.of_nat (length (scanItems Baseline.hasEmptyInformation 2
                        Baseline.mixedPage [mkBook Baseline.ulysses])) <= 2 /\
    (Z.of_nat (length [mkBook Baseline.ulysses]
               + length (accepted Baseline.hasEmptyInformation
                           Baseline.mixedPage)) <= 2 ->
     added = accepted Baseline.hasEmptyInformation Baseline.mixedPage).
Proof.
  apply (scanItems_appends_while_room Baseline.hasEmptyInformation 2
           Baseline.mixedPage [mkBook Baseline.ulysses]).
  simpl. lia.
Defined.

Lemma getBooks_error_is_last_request_witness :
  (@nil (Book Baseline.BookInformation)) = [] /\
  exists calls,
    [duneURL; duneURL]
    = [] ++ replicate (S calls) (volumesURL (QueryEscape "dune")) /\
    ((exists cause,
         replay [Items Baseline.mixedPage; DecodeError "unexpected EOF"]
           (length (@nil string) + calls)%nat (volumesURL (QueryEscape "dune"))
         = GetError cause /\
         "unexpected EOF" = "making GET request: " +:+ cause) \/
     replay [Items Baseline.mixedPage; DecodeError "unexpected EOF"]
       (length (@nil string) + calls)%nat (volumesURL (QueryEscape "dune"))
     = DecodeError "unexpected EOF").
Proof.
  apply (getBooks_error_is_last_request Baseline.hasEmptyInformation 3
           (replay [Items Baseline.mixedPage; DecodeError "unexpected EOF"])
           "dune" 5 [] [] "unexpected EOF" [duneURL; duneURL]).
  vm_compute. reflexivity.
Defined.

Lemma getBooks_result_is_prefix_witness :
  exists pages,
    serves (replay [Items Baseline.mixedPage])
      (volumesURL (QueryEscape "dune")) (length (@nil string)) pages /\
    nonempty_pages pages /\
    map mkBook [Baseline.dune; Baseline.emma]
    = take (Z.to_nat (clampLimit 5))
        (accepted Baseline.hasEmptyInformation (concat pages)) /\
    ((clampLimit 5
      <= Z.of_nat (length (accepted Baseline.hasEmptyInformation
                             (concat pages))) /\
      [duneURL; duneURL]
      = [] ++ replicate (length pages) (volumesURL (QueryEscape "dune")))
     \/
     (Z.of_nat (length (accepted Baseline.hasEmptyInformation (concat pages)))
      < clampLimit 5 /\
      map mkBook [Baseline.dune; Baseline.emma]
      = accepted Baseline.hasEmptyInformation (concat pages) /\
      replay [Items Baseline.mixedPage]
        (length (@nil string) + length pages)%nat
        (volumesURL (QueryEscape "dune"))
      = Items [] /\
      [duneURL; duneURL]
      = [] ++ replicate (S (length pages)) (volumesURL (QueryEscape "dune")))).
Proof.
  apply (getBooks_result_is_prefix Baseline.hasEmptyInformation 3
           (replay [Items Baseline.mixedPage]) "dune" 5 []
           (map mkBook [Baseline.dune; Baseline.emma]) [duneURL; duneURL]).
  vm_compute. reflexivity.
Defined.

Lemma getBooks_requests_one_url_witness :
  exists calls,
    [duneURL; duneURL]
    = [] ++ replicate calls (volumesURL (QueryEscape "dune")) /\
    (calls <= 3)%nat /\ (calls = 0%nat <-> clampLimit 5 <= 0).
Proof.
  apply (getBooks_requests_one_url Baseline.hasEmptyInformation 3
           (replay [Items Baseline.mixedPage]) "dune" 5 []
           (map mkBook [Baseline.dune; Baseline.emma]) None
           [duneURL; duneURL]).
  vm_compute. reflexivity.
Defined.

Lemma getBooks_progress_with_useful_pages_witness :
  exists books calls,
    Baseline.getBooks 12 (samePage Baseline.mixedPage) "dune" 12 []
    = Some (books, None,
            [] ++ replicate calls (volumesURL (QueryEscape "dune"))) /\
    Z.of_nat (length books) = clampLimit 12 /\
    (1 <= calls)%nat /\ Z.of_nat calls <= clampLimit 12.
Proof.
  apply (getBooks_progress_with_useful_pages Baseline.hasEmptyInformation
           (samePage Baseline.mixedPage) "dune" 12 [] 12).
  - intros n. exists Baseline.mixedPage.
    split; [reflexivity | vm_compute; discriminate].
  - reflexivity.
  - vm_compute. lia.
Defined.

Lemma getBooks_smaller_limit_truncates_witness :
  map mkBook [Baseline.dune]
  = take (Z.to_nat 1)
      (map mkBook [Baseline.dune; Baseline.emma; Baseline.ulysses]).
Proof.
  apply (getBooks_smaller_limit_truncates Baseline.hasEmptyInformation
           (samePage Baseline.fivePage) "dune" 1 3 [] 1 1
           (map mkBook [Baseline.dune])
           (map mkBook [Baseline.dune; Baseline.emma; Baseline.ulysses])
           [duneURL] [duneURL]).
  - lia.
  - vm_compute. reflexivity.
  - vm_compute. reflexivity.
Defined.

Lemma ok_response_echoes_query_within_limit_witness :
  200 = 200 /\
  "dune" = Get (params "dune" "3") "query" /\ "dune" <> "" /\
  exists l,
    Atoi (Get (params "dune" "3") "limit") = inl l /\
    0 <= 3 <= l /\
    Baseline.getBooks 1 (samePage Baseline.fivePage)
      (Get (params "dune" "3") "query") l []
    = Some (map mkBook [Baseline.dune; Baseline.emma; Baseline.ulysses],
            None, [duneURL]).
Proof.
  apply (ok_response_echoes_query_within_limit Baseline.hasEmptyInformation
           1 (samePage Baseline.fivePage) (params "dune" "3") [] 200
           (mkResponse "dune" 3
              (map mkBook [Baseline.dune; Baseline.emma; Baseline.ulysses]))
           [duneURL]).
  vm_compute. reflexivity.
Defined.

Lemma bad_request_only_when_invalid_witness :
  (400 = 400 <->
   Get (params "dune" "-1") "query" = "" \/
   Get (params "dune" "-1") "limit" = "" \/
   (exists err, Atoi (Get (params "dune" "-1") "limit") = inr err) \/
   (exists l, Atoi (Get (params "dune" "-1") "limit") = inl l /\ l < 0)) /\
  (400 = 200 \/ 400 = 400 \/ 400 = 500).
Proof.
  apply (bad_request_only_when_invalid Baseline.hasEmptyInformation
           1 (samePage Baseline.fivePage) (params "dune" "-1") []
           (mkHttp 400 (Text "limit cant be a negative number")) []).
  vm_compute. reflexivity.
Defined.

Lemma server_error_only_when_getBooks_fails_witness :
  Baseline.booksHandler 1 (replay [GetError "timeout"]) (params "dune" "3") []
  = Some (mkHttp 500 (Text "getting books: making GET request: timeout"),
          [duneURL]).
Proof.
  apply (proj1 (server_error_only_when_getBooks_fails
                  Baseline.hasEmptyInformation
                  1 (replay [GetError "timeout"]) (params "dune" "3") [])
           3 [] "making GET request: timeout" [duneURL]).
  - vm_compute. discriminate.
  - vm_compute. reflexivity.
  - lia.
  - vm_compute. reflexivity.
Defined.

Lemma listenAddress_has_port_witness :
  listenAddress (<["PORT" := "9000"]> ∅) = ":9000" /\
  listenAddress (<["PORT" := ""]> ∅) = ":8080" /\
  listenAddress (delete "PORT" ∅) = ":8080" /\
  exists port, port <> "" /\ listenAddress ∅ = ":" +:+ port.
Proof.
  apply (listenAddress_has_port ∅ "9000"). discriminate.
Defined.

Lemma escaped_query_has_no_separator_witness :
  (shouldEscape "2"%char = false \/ "2"%char = "+"%char
   \/ "2"%char = "%"%char) /\
  "2"%char <> " "%char /\ "2"%char <> "&"%char /\ "2"%char <> "="%char /\
  "2"%char <> "#"%char /\ "2"%char <> "?"%char /\ "2"%char <> "/"%char.
Proof.
  apply (escaped_query_has_no_separator "a&b" "2"%char).
  vm_compute. auto.
Defined.
